(** * Superflush: the cleanup core of [main.py]

    A shallow embedding of the three core operations of [main.py]
    ([flush_dns], [clear_browser_data], [sign_out_services]) with the
    helpers they call ([is_admin], [log_error]) and the button handlers of
    the window that call them ([action_flush], [action_clear],
    [action_signout], [action_all]).

    The operating system is the environment of the program.  What the
    program can only ask ([os.name], [platform.system()], the result of
    launching a command, whether the log file can be opened) is an [Env];
    what it changes (the files on disk, the lines of the log, the commands it
    has started) is a [State].  A Python function is a computation that reads
    the environment, threads the state, and either returns a value or raises
    an exception. *)

From stdpp Require Import base strings list gmap fin_maps pretty.

Local Open Scope string_scope.
Local Open Scope list_scope.
Local Open Scope Z_scope.

(** ** Python values and exceptions *)

(** A path is the list of its components; [os.path.join p e] adds one. *)
Abbreviation path := (list string).

Definition path_join (p : path) (entry : string) : path := p ++ [entry].

(** The OS error codes behind the [OSError]s of the calls modelled here. *)
Inductive errno :=
| EACCES | ENOENT | ENOTDIR | EISDIR | EOTHER (code : Z).

(** The exceptions that can reach a handler of [main.py].  All of them are
    subclasses of [Exception], which is what every handler there catches. *)
Inductive exn :=
| PermissionError (msg : string)
| RuntimeError (msg : string)
| CalledProcessError (returncode : Z) (cmd : list string)
| OSError (err : errno) (filename : path)
| OtherError (cls msg : string).

(** [is_admin] returns the C [int] of [IsUserAnAdmin] on Windows and a
    [bool] elsewhere; callers only test its truth value. *)
Inductive pyval :=
| PyBool (b : bool)
| PyInt (z : Z).

Definition truthy (v : pyval) : bool :=
  match v with
  | PyBool b => b
  | PyInt z => negb (z =? 0)
  end.

(** ** The operating system *)

(** A directory entry.  [locked] says that the entry cannot be removed
    ([os.remove] on the file, the final [rmdir] on the directory fails). *)
Record node := Node { is_dir : bool; locked : bool }.

Record Env := {
  os_name : string;                       (* os.name *)
  platform_system : string;               (* platform.system() *)
  IsUserAnAdmin : exn + Z;                (* ctypes.windll.shell32.IsUserAnAdmin() *)
  geteuid : option Z;                     (* None: os has no attribute geteuid *)
  spawn : list string -> errno + Z;       (* launch failure, or the exit status *)
  signal_repr : Z -> option string;       (* repr(signal.Signals(n)), if n is one *)
  strerror : errno -> path -> string;     (* str() of an OSError *)
  log_fault : option errno                (* Some: open("superflush.log", "a") fails *)
}.

Record State := {
  fs : gmap path node;                    (* the files and directories on disk *)
  log : list string;                      (* the lines of superflush.log *)
  invoked : list (list string)            (* argv of every subprocess call, oldest first *)
}.

Definition set_fs (f : gmap path node) (s : State) : State :=
  {| fs := f; log := log s; invoked := invoked s |}.

(** ** Computations *)

Inductive outcome (A : Type) :=
| Returns (a : A)
| Raises (e : exn).
Arguments Returns {A} a.
Arguments Raises {A} e.

Definition M (A : Type) : Type := Env -> State -> State * outcome A.

Definition ret {A} (a : A) : M A := fun _ s => (s, Returns a).

Definition bind {A B} (m : M A) (k : A -> M B) : M B :=
  fun env s =>
    match m env s with
    | (s', Returns a) => k a env s'
    | (s', Raises e) => (s', Raises e)
    end.

Definition raise {A} (e : exn) : M A := fun _ s => (s, Raises e).

(** [try: m except Exception as e: h e]. *)
Definition try_except {A} (m : M A) (h : exn -> M A) : M A :=
  fun env s =>
    match m env s with
    | (s', Returns a) => (s', Returns a)
    | (s', Raises e) => h e env s'
    end.

Definition ask {A} (f : Env -> A) : M A := fun env s => (s, Returns (f env)).
Definition get {A} (f : State -> A) : M A := fun _ s => (s, Returns (f s)).
Definition modify (f : State -> State) : M unit := fun _ s => (f s, Returns tt).

Declare Scope py_scope.
Delimit Scope py_scope with py.
Notation "x <- m ;; k" := (bind m (fun x => k))
  (at level 100, m at next level, right associativity) : py_scope.
Notation "m ;; k" := (bind m (fun _ => k))
  (at level 100, right associativity) : py_scope.
Local Open Scope py_scope.

(** [for x in xs: body x], the loop variable [acc] standing for the
    variables the body assigns. *)
Fixpoint for_each {A B} (xs : list A) (body : A -> B -> M B) (acc : B) : M B :=
  match xs with
  | [] => ret acc
  | x :: rest => acc' <- body x acc ;; for_each rest body acc'
  end.

(** ** str() of an exception *)

Definition repr_str (s : string) : string := "'" +:+ s +:+ "'".

Definition repr_list (l : list string) : string :=
  "[" +:+ String.concat ", " (map repr_str l) +:+ "]".

(** [CalledProcessError.__str__]. *)
Definition CalledProcessError_str (env : Env) (returncode : Z) (cmd : list string) : string :=
  if returncode <? 0 then
    match signal_repr env (- returncode) with
    | Some sig => "Command '" +:+ repr_list cmd +:+ "' died with " +:+ sig +:+ "."
    | None => "Command '" +:+ repr_list cmd +:+ "' died with unknown signal "
                +:+ pretty (- returncode) +:+ "."
    end
  else "Command '" +:+ repr_list cmd +:+ "' returned non-zero exit status "
         +:+ pretty returncode +:+ ".".

Definition str_of (env : Env) (e : exn) : string :=
  match e with
  | PermissionError msg => msg
  | RuntimeError msg => msg
  | CalledProcessError rc cmd => CalledProcessError_str env rc cmd
  | OSError err filename => strerror env err filename
  | OtherError _ msg => msg
  end.

Definition str (e : exn) : M string := ask (fun env => str_of env e).

(** ** System calls *)

(** [os.path.exists] and [os.path.isdir]. *)
Definition os_path_exists (p : path) : M bool :=
  get (fun s => bool_decide (is_Some (fs s !! p))).

Definition os_path_isdir (p : path) : M bool :=
  get (fun s => match fs s !! p with Some n => is_dir n | None => false end).

(** [os.remove]: only an unlocked regular file goes away. *)
Definition os_remove (p : path) : M unit :=
  n <- get (fun s => fs s !! p) ;;
  match n with
  | None => raise (OSError ENOENT p)
  | Some n =>
      if is_dir n then raise (OSError EISDIR p)
      else if locked n then raise (OSError EACCES p)
      else modify (fun s => set_fs (delete p (fs s)) s)
  end.

(** Does something below [q] (or [q] itself) resist removal? *)
Definition pinned (f : gmap path node) (q : path) : bool :=
  bool_decide (map_Exists (fun r n => q `prefix_of` r /\ locked n = true) f).

(** [shutil.rmtree(p, ignore_errors=True)]: every file below [p] that can be
    unlinked is, every directory that is then empty and can be removed is,
    and every failure is dropped.  Called on something that is not a
    directory it fails at once and so does nothing. *)
Definition rmtree_fs (p : path) (f : gmap path node) : gmap path node :=
  match f !! p with
  | Some n =>
      if is_dir n
      then filter (fun '(q, _) => ~ p `prefix_of` q \/ pinned f q = true) f
      else f
  | None => f
  end.

Definition shutil_rmtree (p : path) : M unit :=
  modify (fun s => set_fs (rmtree_fs p (fs s)) s).

(** [os.listdir]: the names directly below a directory. *)
Definition children (f : gmap path node) (p : path) : list string :=
  omap (fun '(q, _) => match q with
                       | [] => None
                       | _ => if bool_decide (removelast q = p) then last q else None
                       end) (map_to_list f).

Definition os_listdir (p : path) : M (list string) :=
  n <- get (fun s => fs s !! p) ;;
  match n with
  | None => raise (OSError ENOENT p)
  | Some n =>
      if is_dir n then get (fun s => children (fs s) p)
      else raise (OSError ENOTDIR p)
  end.

(** [subprocess.check_call] and [subprocess.run]: the command is started
    (or fails to start, which raises); [check_call] raises on a status
    other than 0 as well, [run] hands the status back. *)
Definition launch (argv : list string) : M Z :=
  modify (fun s => {| fs := fs s; log := log s; invoked := invoked s ++ [argv] |}) ;;
  r <- ask (fun env => spawn env argv) ;;
  match r with
  | inl err => raise (OSError err (take 1 argv))
  | inr status => ret status
  end.

Definition check_call (argv : list string) : M unit :=
  status <- launch argv ;;
  if status =? 0 then ret tt else raise (CalledProcessError status argv).

Definition subprocess_run (argv : list string) : M Z := launch argv.

(** ** main.py *)

Definition is_admin : M pyval :=
  name <- ask os_name ;;
  if String.eqb name "nt" then
    try_except
      (r <- ask IsUserAnAdmin ;;
       match r with
       | inl e => raise e
       | inr z => ret (PyInt z)
       end)
      (fun _ => ret (PyBool false))
  else
    uid <- ask geteuid ;;
    match uid with
    | Some uid => ret (PyBool (uid =? 0))
    | None => ret (PyBool false)
    end.

Definition log_error (msg : string) : M unit :=
  fault <- ask log_fault ;;
  match fault with
  | Some err => raise (OSError err ["superflush.log"])
  | None => modify (fun s => {| fs := fs s; log := log s ++ [msg]; invoked := invoked s |})
  end.

(** The body of the [try] of [flush_dns]. *)
Definition flush_dns_try : M (bool * string) :=
  system <- ask platform_system ;;
  (if String.eqb system "Windows" then
     admin <- is_admin ;;
     (if negb (truthy admin)
      then raise (PermissionError "Administrator privileges required to flush DNS on Windows.")
      else ret tt) ;;
     check_call ["ipconfig"; "/flushdns"]
   else if String.eqb system "Linux" then
     check_call ["systemd-resolve"; "--flush-caches"]
   else if String.eqb system "Darwin" then
     check_call ["dscacheutil"; "-flushcache"] ;;
     check_call ["killall"; "-HUP"; "mDNSResponder"]
   else raise (RuntimeError ("Unsupported OS: " +:+ system))) ;;
  ret (true, "DNS cache flushed successfully.").

Definition flush_dns : M (bool * string) :=
  try_except flush_dns_try
    (fun e =>
       msg <- str e ;;
       log_error ("DNS flush error: " +:+ msg) ;;
       ret (false, msg)).

(** The configuration tables of the module, fixed when it is loaded. *)
Record Config := {
  BROWSER_PROFILES : list (string * path);    (* the dict, in insertion order *)
  GIT_DESKTOP_CREDENTIALS : path
}.

(** The tables as [main.py] fills them, below the user's home directory. *)
Definition default_config (home : path) : Config :=
  {| BROWSER_PROFILES :=
       [("chrome", (home ++ ["AppData"; "Local"; "Google"; "Chrome"; "User Data"; "Default"]));
        ("edge", (home ++ ["AppData"; "Local"; "Microsoft"; "Edge"; "User Data"; "Default"]));
        ("firefox", (home ++ ["AppData"; "Roaming"; "Mozilla"; "Firefox"; "Profiles"]))];
     GIT_DESKTOP_CREDENTIALS := (home ++ ["AppData"; "Roaming"; "GitHub Desktop"]) |}.

Definition ARTIFACTS : list string := ["History"; "Cookies"; "Login Data"; "Cache"].

(** One artifact of a profile (the body of the inner [for entry] loop). *)
Definition clear_entry (p : path) (entry : string) : M unit :=
  let target := path_join p entry in
  present <- os_path_exists target ;;
  if present then
    dir <- os_path_isdir target ;;
    if dir then shutil_rmtree target else os_remove target
  else ret tt.

(** The body of the [try] of [clear_browser_data], for one browser. *)
Definition clear_profile_try (name : string) (p : path) : M unit :=
  for_each ARTIFACTS (fun entry _ => clear_entry p entry) tt ;;
  if String.eqb name "firefox" then
    profiles <- os_listdir p ;;
    for_each profiles (fun profile _ => shutil_rmtree (path_join p profile)) tt
  else ret tt.

(** One turn of the loop over [BROWSER_PROFILES.items()]. *)
Definition clear_profile (item : string * path) (errors : list string) : M (list string) :=
  let '(name, p) := item in
  present <- os_path_exists p ;;
  if present then
    try_except
      (clear_profile_try name p ;; ret errors)
      (fun e =>
         detail <- str e ;;
         let err_msg := name +:+ ": " +:+ detail in
         log_error err_msg ;;
         ret (errors ++ [err_msg]))
  else ret errors.

Arguments clear_profile : simpl never.

Definition clear_browser_data (cfg : Config) : M (list string) :=
  for_each (BROWSER_PROFILES cfg) clear_profile [].

Definition STORE_TARGETS : list string := ["git:"; "github"; "chrome"; "edge"].

(** The first block of [sign_out_services]: the GitHub Desktop file. *)
Definition sign_out_github_desktop (cfg : Config) (errors : list string) : M (list string) :=
  try_except
    (let cred_file := path_join (GIT_DESKTOP_CREDENTIALS cfg) "git-credential-desktop.json" in
     present <- os_path_exists cred_file ;;
     (if present then os_remove cred_file else ret tt) ;;
     ret errors)
    (fun e =>
       detail <- str e ;;
       let err_msg := "GitHub Desktop: " +:+ detail in
       log_error err_msg ;;
       ret (errors ++ [err_msg])).

(** The second block: the Windows Credential Manager. *)
Definition sign_out_credential_manager (errors : list string) : M (list string) :=
  name <- ask os_name ;;
  if String.eqb name "nt" then
    try_except
      (for_each STORE_TARGETS
         (fun target _ => subprocess_run ["cmdkey"; "/delete"; target] ;; ret tt) tt ;;
       ret errors)
      (fun e =>
         detail <- str e ;;
         let err_msg := "Windows Credentials: " +:+ detail in
         log_error err_msg ;;
         ret (errors ++ [err_msg]))
  else ret errors.

Definition sign_out_services (cfg : Config) : M (list string) :=
  errors <- sign_out_github_desktop cfg [] ;;
  sign_out_credential_manager errors.

(** ** The window: the button handlers of [SuperflushApp] *)

(** What the handlers do to the window: the text of the status bar, and the
    message boxes they open, oldest first. *)
Inductive dialog_kind := showinfo | showwarning | showerror.

Record dialog := Dialog {
  dialog_kind_of : dialog_kind;
  dialog_title : string;
  dialog_text : string
}.

Record UI := {
  status_var : string;
  dialogs : list dialog
}.

(** A method of the window reads the environment and threads the machine
    state and the window; an exception leaves both as they are then. *)
Definition G (A : Type) : Type := Env -> State -> UI -> State * UI * outcome A.

Definition gret {A} (a : A) : G A := fun _ s ui => (s, ui, Returns a).

Definition gbind {A B} (m : G A) (k : A -> G B) : G B :=
  fun env s ui =>
    match m env s ui with
    | (s', ui', Returns a) => k a env s' ui'
    | (s', ui', Raises e) => (s', ui', Raises e)
    end.

(** A call of one of the core functions. *)
Definition call {A} (m : M A) : G A :=
  fun env s ui => let (s', r) := m env s in (s', ui, r).

Declare Scope gui_scope.
Delimit Scope gui_scope with gui.
Notation "x <- m ;; k" := (gbind m (fun x => k))
  (at level 100, m at next level, right associativity) : gui_scope.
Notation "m ;; k" := (gbind m (fun _ => k))
  (at level 100, right associativity) : gui_scope.

Definition set_status (msg : string) : G unit :=
  fun _ s ui => (s, {| status_var := msg; dialogs := dialogs ui |}, Returns tt).

Definition messagebox (k : dialog_kind) (title text : string) : G unit :=
  fun _ s ui =>
    (s, {| status_var := status_var ui; dialogs := dialogs ui ++ [Dialog k title text] |},
     Returns tt).

(** The line feed of ['\n'.join(...)]. *)
Definition NL : string := String (Ascii.ascii_of_nat 10) "".

(** [if errs:] on a list. *)
Definition nonempty {A} (l : list A) : bool :=
  match l with [] => false | _ => true end.

Definition action_flush : G unit :=
  (set_status "Flushing DNS..." ;;
   r <- call flush_dns ;;
   (if r.1 then messagebox showinfo "Flush DNS" r.2
    else messagebox showerror "Flush DNS Error" r.2) ;;
   set_status "Ready.")%gui.

Definition action_clear (cfg : Config) : G unit :=
  (set_status "Clearing browser data..." ;;
   errs <- call (clear_browser_data cfg) ;;
   (if nonempty errs then messagebox showwarning "Clear Data" (String.concat NL errs)
    else messagebox showinfo "Clear Data" "Browser data cleared successfully.") ;;
   set_status "Ready.")%gui.

Definition action_signout (cfg : Config) : G unit :=
  (set_status "Signing out of services..." ;;
   errs <- call (sign_out_services cfg) ;;
   (if nonempty errs then messagebox showwarning "Sign Out" (String.concat NL errs)
    else messagebox showinfo "Sign Out" "Signed out of services successfully.") ;;
   set_status "Ready.")%gui.

Definition action_all (cfg : Config) : G unit :=
  (set_status "Running all cleanup actions..." ;;
   r <- call flush_dns ;;
   let reports := [r.2] in
   cleared <- call (clear_browser_data cfg) ;;
   signed <- call (sign_out_services cfg) ;;
   let errors := cleared ++ signed in
   let reports := if nonempty errors then reports ++ errors else reports in
   messagebox showinfo "Superflush Report" (String.concat NL reports) ;;
   set_status "Ready.")%gui.

(** * Vocabulary of the statements *)

(** The state after one more line in the log, and after more commands. *)
Definition logged (msg : string) (s : State) : State :=
  {| fs := fs s; log := log s ++ [msg]; invoked := invoked s |}.

Definition started (cmds : list (list string)) (s : State) : State :=
  {| fs := fs s; log := log s; invoked := invoked s ++ cmds |}.

(** What [is_admin] answers in an environment. *)
Definition is_admin_value (env : Env) : pyval :=
  if String.eqb (os_name env) "nt" then
    match IsUserAnAdmin env with
    | inl _ => PyBool false
    | inr z => PyInt z
    end
  else
    match geteuid env with
    | Some uid => PyBool (uid =? 0)
    | None => PyBool false
    end.

(** [sub] occurs in [s]. *)
Definition contains (sub s : string) : Prop :=
  exists before after, s = before +:+ sub +:+ after.

Definition NOT_ADMIN_MSG : string :=
  "Administrator privileges required to flush DNS on Windows.".

(** A computation that never creates or changes a file: what is on disk
    afterwards was there before. *)
Definition only_deletes {A} (m : M A) : Prop :=
  forall env s, fs (m env s).1 ⊆ fs s.

(** [q] is a directory, or is not there. *)
Definition dir_or_absent (f : gmap path node) (q : path) : Prop :=
  match f !! q with
  | Some n => is_dir n = true
  | None => True
  end.

(** Nothing is left for [clear_browser_data] to fail on for the browser
    [name] at [p]: the profile is gone, or none of its artifacts is a regular
    file any more and, for firefox, the profile root can be listed. *)
Definition clean (name : string) (p : path) (f : gmap path node) : Prop :=
  f !! p = None \/
  (Forall (fun entry => dir_or_absent f (path_join p entry)) ARTIFACTS /\
   (name = "firefox" -> exists n, f !! p = Some n /\ is_dir n = true)).

(** At most one error string for each browser of the table, in the order of
    the table, each of them the browser's name, a colon and a detail. *)
Inductive one_each : list (string * path) -> list string -> Prop :=
| one_each_nil : one_each [] []
| one_each_none item items errs :
    one_each items errs -> one_each (item :: items) errs
| one_each_one name p detail items errs :
    one_each items errs ->
    one_each ((name, p) :: items) ((name +:+ ": " +:+ detail) :: errs).

(** The artifacts of the profile at [p] that [os.remove] would fail on. *)
Definition undeletable_artifacts (f : gmap path node) (p : path) : list string :=
  List.filter (fun entry => match f !! path_join p entry with
                            | Some n => negb (is_dir n) && locked n
                            | None => false
                            end) ARTIFACTS.

(** The command line [sign_out_services] builds for a store target. *)
Definition cmdkey_delete (target : string) : list string :=
  ["cmdkey"; "/delete"; target].


(** An error string that starts with [prefix]. *)
Definition prefixed (prefix e : string) : Prop :=
  exists detail, e = prefix +:+ detail.

(** ** Sample machines *)

Definition sample_strerror (err : errno) (filename : path) : string :=
  match err with
  | EACCES => "[Errno 13] Permission denied: "
  | ENOENT => "[Errno 2] No such file or directory: "
  | ENOTDIR => "[Errno 20] Not a directory: "
  | EISDIR => "[Errno 21] Is a directory: "
  | EOTHER code => "[Errno " +:+ pretty code +:+ "] Error: "
  end +:+ repr_str (String.concat "/" filename).

(** A Windows session without elevation; every command runs and exits 0. *)
Definition windows_user : Env :=
  {| os_name := "nt"; platform_system := "Windows";
     IsUserAnAdmin := inr 0; geteuid := None;
     spawn := fun _ => inr 0; signal_repr := fun _ => None;
     strerror := sample_strerror; log_fault := None |}.

(** The same session where [shell32] cannot be queried. *)
Definition windows_no_shell32 : Env :=
  {| os_name := "nt"; platform_system := "Windows";
     IsUserAnAdmin := inl (OtherError "AttributeError" "function 'IsUserAnAdmin' not found");
     geteuid := None;
     spawn := fun _ => inr 0; signal_repr := fun _ => None;
     strerror := sample_strerror; log_fault := None |}.

(** A Windows session where [cmdkey] is not on the path. *)
Definition windows_no_cmdkey : Env :=
  {| os_name := "nt"; platform_system := "Windows";
     IsUserAnAdmin := inr 0; geteuid := None;
     spawn := fun _ => inl ENOENT; signal_repr := fun _ => None;
     strerror := sample_strerror; log_fault := None |}.


(** A POSIX session of the user with id [uid]; [systemd-resolve] is missing. *)
Definition posix_user (system : string) (uid : Z) : Env :=
  {| os_name := "posix"; platform_system := system;
     IsUserAnAdmin := inl (OtherError "AttributeError" "module 'ctypes' has no attribute 'windll'");
     geteuid := Some uid;
     spawn := fun argv => if bool_decide (argv = ["systemd-resolve"; "--flush-caches"])
                          then inl ENOENT else inr 0;
     signal_repr := fun _ => None;
     strerror := sample_strerror; log_fault := None |}.

(** A platform whose [os] module has no [geteuid]. *)
Definition no_geteuid : Env :=
  {| os_name := "java"; platform_system := "Java";
     IsUserAnAdmin := inl (OtherError "AttributeError" "module 'ctypes' has no attribute 'windll'");
     geteuid := None;
     spawn := fun _ => inr 0; signal_repr := fun _ => None;
     strerror := sample_strerror; log_fault := None |}.

(** The same machine, started from a directory the user cannot write to. *)
Definition read_only_cwd (env : Env) : Env :=
  {| os_name := os_name env; platform_system := platform_system env;
     IsUserAnAdmin := IsUserAnAdmin env; geteuid := geteuid env;
     spawn := spawn env; signal_repr := signal_repr env;
     strerror := strerror env; log_fault := Some EACCES |}.

Definition sample_config : Config :=
  {| BROWSER_PROFILES :=
       [("chrome", ["home"; "Chrome"]); ("edge", ["home"; "Edge"]);
        ("firefox", ["home"; "Firefox"])];
     GIT_DESKTOP_CREDENTIALS := ["home"; "GitHub Desktop"] |}.

(** The table of the scenario of the specification: chrome is installed,
    ghostbrowser is not. *)
Definition scenario_config : Config :=
  {| BROWSER_PROFILES := [("chrome", ["home"; "Chrome"]); ("ghostbrowser", ["home"; "Ghost"])];
     GIT_DESKTOP_CREDENTIALS := ["home"; "GitHub Desktop"] |}.

Definition disk (files : list (path * node)) : State :=
  {| fs := list_to_map files; log := []; invoked := [] |}.

Definition a_dir : node := Node true false.
Definition a_file : node := Node false false.
Definition a_locked_file : node := Node false true.

Definition empty_disk : State := disk [(["home"], a_dir)].

(** Chrome with a history and cookies that can be deleted. *)
Definition chrome_disk : State :=
  disk [(["home"], a_dir); (["home"; "Chrome"], a_dir);
        (["home"; "Chrome"; "History"], a_file);
        (["home"; "Chrome"; "Cookies"], a_file)].

(** Chrome running: its history and its cookies are both locked. *)
Definition chrome_running_disk : State :=
  disk [(["home"], a_dir); (["home"; "Chrome"], a_dir);
        (["home"; "Chrome"; "History"], a_locked_file);
        (["home"; "Chrome"; "Cookies"], a_locked_file);
        (["home"; "Chrome"; "Cache"], a_dir);
        (["home"; "Chrome"; "Cache"; "data_0"], a_file)].

(** Chrome closed but with one cache file in use, Firefox with two profiles,
    and the GitHub Desktop credential file locked. *)
Definition busy_disk : State :=
  disk [(["home"], a_dir); (["home"; "Chrome"], a_dir);
        (["home"; "Chrome"; "History"], a_file);
        (["home"; "Chrome"; "Cache"], a_dir);
        (["home"; "Chrome"; "Cache"; "data_0"], a_locked_file);
        (["home"; "Chrome"; "Cache"; "data_1"], a_file);
        (["home"; "Firefox"], a_dir);
        (["home"; "Firefox"; "abcd.default"], a_dir);
        (["home"; "Firefox"; "abcd.default"; "places.sqlite"], a_file);
        (["home"; "Firefox"; "wxyz.work"], a_dir);
        (["home"; "GitHub Desktop"], a_dir);
        (["home"; "GitHub Desktop"; "git-credential-desktop.json"], a_locked_file)].

(** Chrome closed, its cookies still held by another process. *)
Definition cookies_locked_disk : State :=
  disk [(["home"], a_dir); (["home"; "Chrome"], a_dir);
        (["home"; "Chrome"; "History"], a_file);
        (["home"; "Chrome"; "Cookies"], a_locked_file);
        (["home"; "Chrome"; "Login Data"], a_file)].

Definition LOG_DENIED : exn := OSError EACCES ["superflush.log"].

(** ** Vocabulary for the rest of the module *)

(** A computation under which the relation [R] holds between the state
    before and the state after, whether it returns or raises. *)
Definition keeps {A} (R : State -> State -> Prop) (m : M A) : Prop :=
  forall env s, R s (m env s).1.

Definition same_files (s s' : State) : Prop := fs s' = fs s.
Definition same_commands (s s' : State) : Prop := invoked s' = invoked s.
Definition same_at (q : path) (s s' : State) : Prop := fs s' !! q = fs s !! q.
Definition same_log (s s' : State) : Prop := log s' = log s.

(** The entry [n] at [q], if it is there before, is there after. *)
Definition stays (q : path) (n : node) (s s' : State) : Prop :=
  fs s !! q = Some n -> fs s' !! q = Some n.

(** The commands [flush_dns] runs on a platform, in order. *)
Definition dns_commands (system : string) : list (list string) :=
  if String.eqb system "Windows" then [["ipconfig"; "/flushdns"]]
  else if String.eqb system "Linux" then [["systemd-resolve"; "--flush-caches"]]
  else if String.eqb system "Darwin" then
    [["dscacheutil"; "-flushcache"]; ["killall"; "-HUP"; "mDNSResponder"]]
  else [].

(** A run of [check_call]s: the commands that get started, and the
    exception of the first that fails, if one does. *)
Fixpoint checked (env : Env) (cmds : list (list string)) : list (list string) * option exn :=
  match cmds with
  | [] => ([], None)
  | c :: cs =>
      match spawn env c with
      | inl err => ([c], Some (OSError err (take 1 c)))
      | inr status =>
          if status =? 0 then (c :: (checked env cs).1, (checked env cs).2)
          else ([c], Some (CalledProcessError status c))
      end
  end.

(** The platform has a branch in [flush_dns], the session is elevated where
    that is asked for, and every command of the platform exits with 0. *)
Definition dns_flushable (env : Env) : Prop :=
  dns_commands (platform_system env) <> [] /\
  (platform_system env = "Windows" -> truthy (is_admin_value env) = true) /\
  Forall (fun c => spawn env c = inr 0) (dns_commands (platform_system env)).

Definition DNS_OK_MSG : string := "DNS cache flushed successfully.".

(** [q] is where [clear_browser_data] may delete for the browser [name] at
    [p]: at or below one of the four artifacts, or, for firefox, anywhere
    strictly below the profile root. *)
Definition targeted (name : string) (p q : path) : Prop :=
  (exists entry, entry ∈ ARTIFACTS /\ path_join p entry `prefix_of` q) \/
  (name = "firefox" /\ exists x, path_join p x `prefix_of` q).


Definition cred_file (cfg : Config) : path :=
  path_join (GIT_DESKTOP_CREDENTIALS cfg) "git-credential-desktop.json".

(** [q] is a file named as the log, which [log_error] opens in whatever
    directory the program was started from. *)
Definition is_log_file (q : path) : Prop := last q = Some "superflush.log".

(** [os.remove] would not fail on [q]: it is a directory (which [rmtree]
    takes), a file that is not locked, or not there. *)
Definition harmless (f : gmap path node) (q : path) : Prop :=
  match f !! q with
  | Some n => is_dir n = true \/ locked n = false
  | None => True
  end.

(** If the directory [np] at [p] and the entry [n] at [t] are there before,
    they are there after. *)
Definition anchored (p t : path) (np n : node) (s s' : State) : Prop :=
  fs s !! p = Some np /\ fs s !! t = Some n ->
  fs s' !! p = Some np /\ fs s' !! t = Some n.

(** The [cmdkey] commands the loop over [targets] starts: one for each
    target, up to and including the first that cannot be started. *)
Fixpoint attempted (env : Env) (targets : list string) : list (list string) :=
  match targets with
  | [] => []
  | t :: ts =>
      cmdkey_delete t ::
      match spawn env (cmdkey_delete t) with
      | inl _ => []
      | inr _ => attempted env ts
      end
  end.

(** Chrome and Edge both running, each with one locked file. *)
Definition two_running_disk : State :=
  disk [(["home"], a_dir); (["home"; "Chrome"], a_dir);
        (["home"; "Chrome"; "History"], a_locked_file);
        (["home"; "Edge"], a_dir);
        (["home"; "Edge"; "History"], a_file);
        (["home"; "Edge"; "Cookies"], a_locked_file);
        (["home"; "Edge"; "Login Data"], a_locked_file)].

Definition fresh_window : UI := {| status_var := "Ready."; dialogs := [] |}.

(** The box a handler opens for the errors an operation returned. *)
Definition report_box (title success : string) (errs : list string) : dialog :=
  if nonempty errs then Dialog showwarning title (String.concat NL errs)
  else Dialog showinfo title success.

(** Firefox with one profile and a stray file beside it. *)
Definition firefox_disk : State :=
  disk [(["home"], a_dir); (["home"; "Firefox"], a_dir);
        (["home"; "Firefox"; "abcd.default"], a_dir);
        (["home"; "Firefox"; "abcd.default"; "cookies.sqlite"], a_file);
        (["home"; "Firefox"; "notes.txt"], a_file)].

(** A regular file where the profile directory should be. *)
Definition profile_file_disk : State :=
  disk [(["home"], a_dir); (["home"; "Firefox"], a_file)].

(** GitHub Desktop signed in, its credential file free. *)
Definition signed_in_disk : State :=
  disk [(["home"], a_dir); (["home"; "GitHub Desktop"], a_dir);
        (["home"; "GitHub Desktop"; "git-credential-desktop.json"], a_file)].

(** A directory under the name of the credential file. *)
Definition credential_dir_disk : State :=
  disk [(["home"], a_dir); (["home"; "GitHub Desktop"], a_dir);
        (["home"; "GitHub Desktop"; "git-credential-desktop.json"], a_dir)].

(** * Properties *)

(** The table of [main.py] names chrome, edge and firefox, in this order. *)
Example default_profiles (home : path) :
  map fst (BROWSER_PROFILES (default_config home)) = ["chrome"; "edge"; "firefox"].
Proof. reflexivity. Qed.

Ltac run :=
  cbv [bind ret ask get modify raise try_except str log_error launch check_call
       subprocess_run];
  simpl.

Lemma append_empty_r (s : string) : s +:+ "" = s.
Proof.
  induction s as [|a s IH]; [reflexivity|].
  change (String a (s +:+ "") = String a s). by rewrite IH.
Qed.

Lemma log_error_ok env s msg :
  log_fault env = None -> log_error msg env s = (logged msg s, Returns tt).
Proof. intros H. unfold log_error. run. by rewrite H. Qed.

Lemma log_error_fault env s msg err :
  log_fault env = Some err ->
  log_error msg env s = (s, Raises (OSError err ["superflush.log"])).
Proof. intros H. unfold log_error. run. by rewrite H. Qed.

(** ** is_admin *)

(** [is_admin] is a query: it returns, and leaves the state as it was. *)
Lemma is_admin_query env s : is_admin env s = (s, Returns (is_admin_value env)).
Proof.
  unfold is_admin, is_admin_value. run.
  destruct (String.eqb (os_name env) "nt").
  - by destruct (IsUserAnAdmin env).
  - by destruct (geteuid env).
Qed.

(** C9. [is_admin] fails safe.  Under [os.name == 'nt'] a query that raises
    gives [False]; elsewhere the answer is [True] exactly when the effective
    user id is 0, and [False] when [os] has no [geteuid].  In every case the
    call returns and changes nothing. *)
Theorem is_admin_fail_safe env s :
  (os_name env = "nt" ->
   forall e, IsUserAnAdmin env = inl e ->
   is_admin env s = (s, Returns (PyBool false))) /\
  (os_name env <> "nt" ->
   forall uid, geteuid env = Some uid ->
   is_admin env s = (s, Returns (PyBool (bool_decide (uid = 0))))) /\
  (os_name env <> "nt" ->
   geteuid env = None ->
   is_admin env s = (s, Returns (PyBool false))).
Proof.
  rewrite is_admin_query. unfold is_admin_value. repeat split.
  - intros -> e ->. done.
  - intros Hos uid ->. apply String.eqb_neq in Hos as ->.
    do 3 f_equal. destruct (Z.eqb_spec uid 0); [by rewrite bool_decide_true|by rewrite bool_decide_false].
  - intros Hos ->. by apply String.eqb_neq in Hos as ->.
Qed.

(** ** flush_dns *)

(** What [flush_dns] does once its [try] has raised [e]. *)
Lemma flush_dns_handler env s s' e :
  flush_dns_try env s = (s', Raises e) ->
  flush_dns env s =
    match log_fault env with
    | None => (logged ("DNS flush error: " +:+ str_of env e) s', Returns (false, str_of env e))
    | Some err => (s', Raises (OSError err ["superflush.log"]))
    end.
Proof.
  intros H. unfold flush_dns, try_except. rewrite H. run.
  by destruct (log_fault env).
Qed.

(** Without elevation on Windows the [try] raises [PermissionError] before
    any command is started; the caller gets the failure pair once the text is
    in the log, and the error of [log_error] when it cannot be written. *)
Lemma flush_dns_windows_not_admin env s :
  platform_system env = "Windows" ->
  truthy (is_admin_value env) = false ->
  flush_dns_try env s = (s, Raises (PermissionError NOT_ADMIN_MSG)) /\
  invoked (flush_dns env s).1 = invoked s /\
  (log_fault env = None ->
   flush_dns env s = (logged ("DNS flush error: " +:+ NOT_ADMIN_MSG) s, Returns (false, NOT_ADMIN_MSG))) /\
  (forall err, log_fault env = Some err ->
   flush_dns env s = (s, Raises (OSError err ["superflush.log"]))).
Proof.
  intros Hsys Hadm.
  assert (Htry : flush_dns_try env s = (s, Raises (PermissionError NOT_ADMIN_MSG))).
  { unfold flush_dns_try. unfold bind at 1. unfold ask at 1. rewrite Hsys. simpl.
    unfold bind at 1. unfold bind at 1. unfold bind at 1.
    rewrite is_admin_query, Hadm. done. }
  split; [done|]. rewrite (flush_dns_handler _ _ _ _ Htry).
  split; [by destruct (log_fault env)|]. split; [by intros ->|by intros err ->].
Qed.

(** On a platform that has no branch the [try] raises [RuntimeError] with the
    platform name in its text, again before any command is started. *)
Lemma flush_dns_unsupported env s :
  platform_system env <> "Windows" ->
  platform_system env <> "Linux" ->
  platform_system env <> "Darwin" ->
  let msg := "Unsupported OS: " +:+ platform_system env in
  flush_dns_try env s = (s, Raises (RuntimeError msg)) /\
  contains (platform_system env) msg /\
  invoked (flush_dns env s).1 = invoked s /\
  (log_fault env = None ->
   flush_dns env s = (logged ("DNS flush error: " +:+ msg) s, Returns (false, msg))) /\
  (forall err, log_fault env = Some err ->
   flush_dns env s = (s, Raises (OSError err ["superflush.log"]))).
Proof.
  intros H1 H2 H3 msg.
  assert (Htry : flush_dns_try env s = (s, Raises (RuntimeError msg))).
  { unfold flush_dns_try. unfold bind at 1. unfold ask at 1.
    apply String.eqb_neq in H1, H2, H3. by rewrite H1, H2, H3. }
  split; [done|]. split.
  { exists "Unsupported OS: ", "". subst msg. by rewrite append_empty_r. }
  rewrite (flush_dns_handler _ _ _ _ Htry).
  split; [by destruct (log_fault env)|]. split; [by intros ->|by intros err ->].
Qed.

(** ** The file system only shrinks *)

Lemma rmtree_fs_subseteq (p : path) (f : gmap path node) : rmtree_fs p f ⊆ f.
Proof.
  unfold rmtree_fs. destruct (f !! p) as [n|]; [|done].
  destruct (is_dir n); [apply map_filter_subseteq|done].
Qed.

(** [rmtree] leaves alone what is not below its argument. *)
Lemma rmtree_fs_lookup_outside (p : path) (f : gmap path node) (q : path) :
  ~ p `prefix_of` q -> rmtree_fs p f !! q = f !! q.
Proof.
  intros Hq. unfold rmtree_fs. destruct (f !! p) as [n|]; [|done].
  destruct (is_dir n); [|done].
  destruct (f !! q) as [m|] eqn:Hm.
  - apply map_lookup_filter_Some. split; [done|]. by left.
  - apply map_lookup_filter_None. by left.
Qed.

Lemma only_deletes_ret {A} (a : A) : only_deletes (ret a).
Proof. by intros env s. Qed.

Lemma only_deletes_raise {A} e : only_deletes (@raise A e).
Proof. by intros env s. Qed.

Lemma only_deletes_ask {A} (f : Env -> A) : only_deletes (ask f).
Proof. by intros env s. Qed.

Lemma only_deletes_get {A} (f : State -> A) : only_deletes (get f).
Proof. by intros env s. Qed.

Lemma only_deletes_bind {A B} (m : M A) (k : A -> M B) :
  only_deletes m -> (forall a, only_deletes (k a)) -> only_deletes (bind m k).
Proof.
  intros Hm Hk env s. unfold bind. specialize (Hm env s).
  destruct (m env s) as [s' [a|e]]; simpl in *; [|done].
  by etrans; [apply Hk|].
Qed.

Lemma only_deletes_try_except {A} (m : M A) (h : exn -> M A) :
  only_deletes m -> (forall e, only_deletes (h e)) -> only_deletes (try_except m h).
Proof.
  intros Hm Hh env s. unfold try_except. specialize (Hm env s).
  destruct (m env s) as [s' [a|e]]; simpl in *; [done|].
  by etrans; [apply Hh|].
Qed.

Lemma only_deletes_for_each {A B} (xs : list A) (body : A -> B -> M B) acc :
  (forall x b, only_deletes (body x b)) -> only_deletes (for_each xs body acc).
Proof.
  intros Hbody. revert acc. induction xs as [|x xs IH]; intros acc; simpl.
  - apply only_deletes_ret.
  - apply only_deletes_bind; [apply Hbody|apply IH].
Qed.

Lemma only_deletes_if {A} (b : bool) (m1 m2 : M A) :
  only_deletes m1 -> only_deletes m2 -> only_deletes (if b then m1 else m2).
Proof. by destruct b. Qed.

Lemma only_deletes_os_remove (p : path) : only_deletes (os_remove p).
Proof.
  intros env s. unfold os_remove. run.
  destruct (fs s !! p) as [n|]; [|done].
  destruct (is_dir n); [done|]. destruct (locked n); [done|].
  simpl. apply delete_subseteq.
Qed.

Lemma only_deletes_shutil_rmtree (p : path) : only_deletes (shutil_rmtree p).
Proof. intros env s. apply rmtree_fs_subseteq. Qed.

Lemma only_deletes_os_listdir (p : path) : only_deletes (os_listdir p).
Proof.
  intros env s. unfold os_listdir. run.
  destruct (fs s !! p) as [n|]; [|done]. by destruct (is_dir n).
Qed.

Lemma only_deletes_log_error msg : only_deletes (log_error msg).
Proof. intros env s. unfold log_error. run. by destruct (log_fault env). Qed.

Create HintDb shrink.
#[local] Hint Resolve only_deletes_ret only_deletes_raise only_deletes_ask
  only_deletes_get only_deletes_os_remove only_deletes_shutil_rmtree
  only_deletes_os_listdir only_deletes_log_error : shrink.

Ltac shrink :=
  repeat first
    [ progress eauto with shrink
    | apply only_deletes_bind; [|intros ?]
    | apply only_deletes_try_except; [|intros ?]
    | apply only_deletes_for_each; intros ? ?
    | apply only_deletes_if ].

Lemma only_deletes_clear_entry (p : path) (entry : string) : only_deletes (clear_entry p entry).
Proof. unfold clear_entry, os_path_exists, os_path_isdir. shrink. Qed.

Lemma only_deletes_clear_profile_try (name : string) (p : path) : only_deletes (clear_profile_try name p).
Proof. unfold clear_profile_try. shrink. Qed.

Lemma only_deletes_clear_profile item errors : only_deletes (clear_profile item errors).
Proof.
  destruct item as [name p]. unfold clear_profile, os_path_exists, str. shrink.
Qed.

Lemma only_deletes_clear_profiles items errors :
  only_deletes (for_each items clear_profile errors).
Proof. apply only_deletes_for_each. intros. apply only_deletes_clear_profile. Qed.

(** ** clear_browser_data: one turn of the loop *)

Lemma for_each_app {A B} (xs ys : list A) (body : A -> B -> M B) acc env s :
  for_each (xs ++ ys) body acc env s =
    match for_each xs body acc env s with
    | (s', Returns acc') => for_each ys body acc' env s'
    | (s', Raises e) => (s', Raises e)
    end.
Proof.
  revert acc s. induction xs as [|x xs IH]; intros acc s; simpl; [done|].
  unfold bind. destruct (body x acc env s) as [s1 [acc1|e]]; [apply IH|done].
Qed.

Lemma path_join_not_prefix (p : path) (entry : string) :
  ~ path_join p entry `prefix_of` p.
Proof.
  intros H%prefix_length. unfold path_join in H. rewrite length_app in H.
  simpl in H. lia.
Qed.

(** A profile that is not on disk: the turn changes nothing and adds nothing. *)
Lemma clear_profile_absent env s (name : string) (p : path) errors :
  fs s !! p = None -> clear_profile (name, p) errors env s = (s, Returns errors).
Proof.
  intros H. unfold clear_profile, os_path_exists. run. rewrite H.
  by rewrite bool_decide_false by (by intros [? ?]).
Qed.

Lemma dir_or_absent_mono (f f' : gmap path node) (q : path) :
  f' ⊆ f -> dir_or_absent f q -> dir_or_absent f' q.
Proof.
  unfold dir_or_absent. intros Hsub H.
  destruct (f' !! q) as [n|] eqn:Hq; [|done].
  by rewrite (lookup_weaken _ _ _ _ Hq Hsub) in H.
Qed.

Lemma clean_mono (name : string) (p : path) (f f' : gmap path node) :
  f' ⊆ f -> clean name p f -> clean name p f'.
Proof.
  intros Hsub H. destruct (f' !! p) as [n|] eqn:Hp; [|by left].
  pose proof (lookup_weaken _ _ _ _ Hp Hsub) as Hp'.
  destruct H as [H|[Hent Hff]]; [congruence|]. right. split.
  - eapply Forall_impl; [exact Hent|]. intros e. by apply dir_or_absent_mono.
  - intros Hname. destruct (Hff Hname) as (m & Hm & Hdir).
    exists n. split; [done|]. congruence.
Qed.

(** An artifact that is a directory or is not there cannot make its turn
    raise; and a turn that did not raise leaves no regular file behind. *)
Lemma clear_entry_quiet env s (p : path) (entry : string) :
  dir_or_absent (fs s) (path_join p entry) ->
  exists s', clear_entry p entry env s = (s', Returns tt).
Proof.
  unfold dir_or_absent, clear_entry, os_path_exists, os_path_isdir, shutil_rmtree.
  run. destruct (fs s !! path_join p entry) as [n|] eqn:Hn.
  - intros Hdir. rewrite bool_decide_true by eauto. simpl. rewrite Hn, Hdir. eauto.
  - intros _. rewrite bool_decide_false by (by intros [? ?]). eauto.
Qed.

Lemma clear_entry_returns env s s' (p : path) (entry : string) :
  clear_entry p entry env s = (s', Returns tt) ->
  dir_or_absent (fs s') (path_join p entry).
Proof.
  unfold dir_or_absent, clear_entry, os_path_exists, os_path_isdir, shutil_rmtree,
    os_remove.
  run. destruct (fs s !! path_join p entry) as [n|] eqn:Hn.
  - rewrite bool_decide_true by eauto. simpl. rewrite Hn.
    destruct (is_dir n) eqn:Hdir.
    + intros [= <-]. simpl.
      destruct (rmtree_fs _ _ !! _) as [m|] eqn:Hm; [|done].
      pose proof (lookup_weaken _ _ _ _ Hm (rmtree_fs_subseteq _ _)). congruence.
    + rewrite Hn, Hdir. destruct (locked n); [done|]. intros [= <-]. simpl.
      by rewrite lookup_delete_eq.
  - rewrite bool_decide_false by (by intros [? ?]). intros [= <-]. by rewrite Hn.
Qed.

Lemma clear_entry_lookup_outside env s (p q : path) (entry : string) :
  ~ path_join p entry `prefix_of` q ->
  fs (clear_entry p entry env s).1 !! q = fs s !! q.
Proof.
  intros Hq.
  unfold clear_entry, os_path_exists, os_path_isdir, shutil_rmtree, os_remove.
  run. destruct (fs s !! path_join p entry) as [n|] eqn:Hn.
  - rewrite bool_decide_true by eauto. simpl. rewrite Hn.
    destruct (is_dir n) eqn:Hdir; simpl.
    + by apply rmtree_fs_lookup_outside.
    + rewrite Hn, Hdir. destruct (locked n); [done|]. simpl. apply lookup_delete_ne.
      intros Heq. apply Hq. by rewrite Heq.
  - by rewrite bool_decide_false by (by intros [? ?]).
Qed.

Lemma entries_quiet env s (p : path) (entries : list string) :
  Forall (fun entry => dir_or_absent (fs s) (path_join p entry)) entries ->
  exists s', for_each entries (fun entry _ => clear_entry p entry) tt env s = (s', Returns tt)
             /\ fs s' !! p = fs s !! p.
Proof.
  revert s. induction entries as [|e entries IH]; intros s Hall; simpl.
  - by exists s.
  - apply Forall_cons in Hall as [He Hall].
    destruct (clear_entry_quiet env s p e He) as [s1 Hs1].
    pose proof (only_deletes_clear_entry p e env s) as Hsub.
    pose proof (clear_entry_lookup_outside env s p p e (path_join_not_prefix p e)) as Hp.
    rewrite Hs1 in Hsub, Hp. simpl in Hsub, Hp.
    destruct (IH s1) as (s' & Hs' & Hp').
    { eapply Forall_impl; [exact Hall|]. intros x. by apply dir_or_absent_mono. }
    exists s'. unfold bind. rewrite Hs1. split; [done|congruence].
Qed.

Lemma entries_returns env s s' (p : path) (entries : list string) :
  for_each entries (fun entry _ => clear_entry p entry) tt env s = (s', Returns tt) ->
  Forall (fun entry => dir_or_absent (fs s') (path_join p entry)) entries.
Proof.
  revert s. induction entries as [|e entries IH]; intros s; simpl; [done|].
  unfold bind. destruct (clear_entry p e env s) as [s1 [[]|ex]] eqn:Hs1; [|done].
  intros Hrest. apply Forall_cons. split; [|by eapply IH].
  eapply dir_or_absent_mono; [|by eapply clear_entry_returns].
  pose proof (only_deletes_for_each entries (fun entry _ => clear_entry p entry) tt
                (fun x b => only_deletes_clear_entry p x) env s1) as Hsub.
  by rewrite Hrest in Hsub.
Qed.

Lemma rmtrees_quiet env s (p : path) (names : list string) :
  exists s', for_each names (fun profile _ => shutil_rmtree (path_join p profile)) tt env s
             = (s', Returns tt).
Proof.
  revert s. induction names as [|x names IH]; intros s; simpl; [by exists s|].
  unfold bind, shutil_rmtree at 1, modify. apply IH.
Qed.

Lemma clear_profile_try_quiet env s (name : string) (p : path) :
  is_Some (fs s !! p) -> clean name p (fs s) ->
  exists s', clear_profile_try name p env s = (s', Returns tt).
Proof.
  intros [n Hn] [Habs|[Hent Hff]]; [congruence|].
  destruct (entries_quiet env s p ARTIFACTS Hent) as (s1 & Hs1 & Hp).
  unfold clear_profile_try, bind at 1. rewrite Hs1.
  destruct (String.eqb_spec name "firefox") as [Hname|_]; [|by eexists].
  destruct (Hff Hname) as (m & Hm & Hdir).
  unfold os_listdir. run. rewrite Hp, Hm, Hdir. apply rmtrees_quiet.
Qed.

Lemma clear_profile_try_returns env s s' (name : string) (p : path) :
  clear_profile_try name p env s = (s', Returns tt) -> clean name p (fs s').
Proof.
  unfold clear_profile_try, bind at 1.
  destruct (for_each ARTIFACTS _ tt env s) as [s1 [[]|e]] eqn:Hs1; [|done].
  apply entries_returns in Hs1.
  destruct (String.eqb_spec name "firefox") as [Hname|Hname].
  - unfold os_listdir. run. destruct (fs s1 !! p) as [n|] eqn:Hn; [|done].
    destruct (is_dir n) eqn:Hdir; [|done]. simpl. intros Hrm.
    assert (Hsub : fs s' ⊆ fs s1).
    { pose proof (only_deletes_for_each (children (fs s1) p)
                    (fun profile _ => shutil_rmtree (path_join p profile)) tt
                    (fun x b => only_deletes_shutil_rmtree _) env s1) as H.
      by rewrite Hrm in H. }
    eapply clean_mono; [exact Hsub|]. right. split; [done|]. eauto.
  - intros [= <-]. right. split; [done|]. by intros ?.
Qed.

(** A clean profile makes its turn add nothing. *)
Lemma clear_profile_quiet env s (name : string) (p : path) errors :
  clean name p (fs s) ->
  exists s', clear_profile (name, p) errors env s = (s', Returns errors).
Proof.
  intros Hclean. destruct (fs s !! p) as [n|] eqn:Hn.
  - destruct (clear_profile_try_quiet env s name p) as [s' Hs']; [eauto|done|].
    exists s'. unfold clear_profile, os_path_exists. run.
    rewrite Hn, bool_decide_true by eauto. unfold try_except, bind.
    by rewrite Hs'.
  - exists s. by apply clear_profile_absent.
Qed.

(** A turn that added nothing leaves the profile clean. *)
Lemma clear_profile_returns env s s' (name : string) (p : path) errors :
  clear_profile (name, p) errors env s = (s', Returns errors) ->
  clean name p (fs s').
Proof.
  destruct (fs s !! p) as [n|] eqn:Hn.
  - unfold clear_profile, os_path_exists. run.
    rewrite Hn, bool_decide_true by eauto. unfold try_except, bind.
    destruct (clear_profile_try name p env s) as [s1 [[]|e]] eqn:Hs1.
    + intros [= <-]. by eapply clear_profile_try_returns.
    + unfold str, ask, log_error, ask, modify, raise, ret.
      destruct (log_fault env); [done|]. intros [= _ Herr].
      apply (f_equal length) in Herr. rewrite length_app in Herr. simpl in Herr. lia.
  - rewrite clear_profile_absent by done. intros [= <-]. by left.
Qed.

(** ** clear_browser_data: the claims *)

(** C5. A configured browser whose profile path is not on disk: its turn of
    the loop, in whatever state the earlier turns leave, changes nothing (no
    file, no log line, no command) and adds no error string; the whole call
    ends exactly as it would without that browser in the table. *)
Theorem absent_profile_is_skipped cfg env s pre (name : string) (p : path) post :
  BROWSER_PROFILES cfg = pre ++ (name, p) :: post ->
  fs s !! p = None ->
  (forall s1 errors, fs s1 ⊆ fs s ->
     clear_profile (name, p) errors env s1 = (s1, Returns errors)) /\
  clear_browser_data cfg env s = for_each (pre ++ post) clear_profile [] env s.
Proof.
  intros Hcfg Hp.
  assert (Hturn : forall s1 errors, fs s1 ⊆ fs s ->
            clear_profile (name, p) errors env s1 = (s1, Returns errors)).
  { intros s1 errors Hsub. apply clear_profile_absent.
    by eapply lookup_weaken_None. }
  split; [done|].
  unfold clear_browser_data. rewrite Hcfg, !for_each_app.
  pose proof (only_deletes_clear_profiles pre [] env s) as Hsub.
  destruct (for_each pre clear_profile [] env s) as [s1 [errors|e]]; [|done].
  simpl. unfold bind at 1. by rewrite Hturn.
Qed.

(** C6. Idempotence, browser by browser.  Take the browser [(name, p)] of
    the table, and a first call in which its turn added no error string (the
    browser was fully cleared).  In the call that follows at once, from the
    state the first call ended in, the turn of that browser adds no error
    string either, whatever the other browsers did in between. *)
Theorem clear_browser_data_idempotent cfg env pre (name : string) (p : path) post
    s sa ea sb sc rc sd ed :
  BROWSER_PROFILES cfg = pre ++ (name, p) :: post ->
  for_each pre clear_profile [] env s = (sa, Returns ea) ->
  clear_profile (name, p) ea env sa = (sb, Returns ea) ->
  for_each post clear_profile ea env sb = (sc, rc) ->
  for_each pre clear_profile [] env sc = (sd, Returns ed) ->
  clear_browser_data cfg env s = (sc, rc) /\
  exists se,
    clear_profile (name, p) ed env sd = (se, Returns ed) /\
    clear_browser_data cfg env sc = for_each post clear_profile ed env se.
Proof.
  intros Hcfg Hpre Hturn Hpost Hpre2.
  split.
  { unfold clear_browser_data. rewrite Hcfg, for_each_app, Hpre. simpl.
    unfold bind at 1. by rewrite Hturn. }
  assert (Hclean : clean name p (fs sd)).
  { apply clear_profile_returns in Hturn.
    pose proof (only_deletes_clear_profiles post ea env sb) as H1.
    pose proof (only_deletes_clear_profiles pre [] env sc) as H2.
    rewrite Hpost in H1. rewrite Hpre2 in H2. simpl in H1, H2.
    eapply clean_mono; [|exact Hturn]. by etrans. }
  destruct (clear_profile_quiet env sd name p ed Hclean) as [se Hse].
  exists se. split; [done|].
  unfold clear_browser_data. rewrite Hcfg, for_each_app, Hpre2. simpl.
  unfold bind at 1. by rewrite Hse.
Qed.

(** With the log writable, a turn returns, with the errors it was given and
    at most one more, made of the browser's name and a detail. *)
Lemma clear_profile_one env s (name : string) (p : path) errors :
  log_fault env = None ->
  exists s',
    clear_profile (name, p) errors env s = (s', Returns errors) \/
    exists detail,
      clear_profile (name, p) errors env s
      = (s', Returns (errors ++ [name +:+ ": " +:+ detail])).
Proof.
  intros Hlog. unfold clear_profile, os_path_exists. run.
  destruct (bool_decide _); [|eauto].
  destruct (clear_profile_try name p env s) as [s1 [[]|e]]; [eauto|].
  rewrite Hlog. simpl. eauto.
Qed.

Lemma clear_profiles_one_each env s items errors :
  log_fault env = None ->
  exists s' errs,
    for_each items clear_profile errors env s = (s', Returns (errors ++ errs)) /\
    one_each items errs.
Proof.
  intros Hlog. revert s errors.
  induction items as [|[name p] items IH]; intros s errors; simpl.
  - exists s, []. rewrite app_nil_r. split; [done|constructor].
  - unfold bind.
    destruct (clear_profile_one env s name p errors Hlog) as [s1 [H|[detail H]]];
      rewrite H.
    + destruct (IH s1 errors) as (s' & errs & Hrun & Hone).
      exists s', errs. split; [done|]. by constructor.
    + destruct (IH s1 (errors ++ [name +:+ ": " +:+ detail])) as (s' & errs & Hrun & Hone).
      exists s', ((name +:+ ": " +:+ detail) :: errs). split.
      * by rewrite Hrun, <- app_assoc.
      * by constructor.
Qed.

(** The first artifact that cannot be deleted ends the turn of its browser. *)
Lemma clear_profile_stops env s s1 (name : string) (p : path) errors
    before (entry : string) after n :
  log_fault env = None ->
  ARTIFACTS = before ++ entry :: after ->
  is_Some (fs s !! p) ->
  for_each before (fun e _ => clear_entry p e) tt env s = (s1, Returns tt) ->
  fs s1 !! path_join p entry = Some n -> is_dir n = false -> locked n = true ->
  let err_msg := name +:+ ": " +:+ strerror env EACCES (path_join p entry) in
  clear_profile (name, p) errors env s = (logged err_msg s1, Returns (errors ++ [err_msg])).
Proof.
  intros Hlog Hart Hp Hbefore Hn Hdir Hlock err_msg.
  assert (Htry : clear_profile_try name p env s
                 = (s1, Raises (OSError EACCES (path_join p entry)))).
  { unfold clear_profile_try, bind at 1. rewrite Hart, for_each_app, Hbefore.
    simpl. unfold bind at 1.
    unfold clear_entry, os_path_exists, os_path_isdir, os_remove. run.
    rewrite Hn, bool_decide_true by eauto.
    by repeat (progress (rewrite ?Hn, ?Hdir, ?Hlock; simpl)). }
  unfold clear_profile, os_path_exists. run. rewrite bool_decide_true by done.
  rewrite Htry, Hlog. done.
Qed.

(** *** The whole call, twice *)

Lemma clear_profile_grows env s s' item errors errs :
  clear_profile item errors env s = (s', Returns errs) ->
  exists more, errs = errors ++ more.
Proof.
  destruct item as [name p]. unfold clear_profile, os_path_exists. run.
  destruct (bool_decide _).
  - destruct (clear_profile_try name p env s) as [s1 [[]|e]].
    + intros [= _ <-]. exists []. by rewrite app_nil_r.
    + destruct (log_fault env); [done|]. intros [= _ <-]. eauto.
  - intros [= _ <-]. exists []. by rewrite app_nil_r.
Qed.

Lemma clear_profiles_grow env s s' items errors errs :
  for_each items clear_profile errors env s = (s', Returns errs) ->
  exists more, errs = errors ++ more.
Proof.
  revert s errors. induction items as [|item items IH]; intros s errors; simpl.
  - intros [= _ <-]. exists []. by rewrite app_nil_r.
  - unfold bind. destruct (clear_profile item errors env s) as [s1 [e1|e]] eqn:H1; [|done].
    intros [more2 ->]%IH. apply clear_profile_grows in H1 as [more1 ->].
    exists (more1 ++ more2). by rewrite app_assoc.
Qed.

(** A call that returns the errors it started with has left every browser
    of the table clean. *)
Lemma clear_profiles_all_clean env s s' items errors :
  for_each items clear_profile errors env s = (s', Returns errors) ->
  Forall (fun item => clean item.1 item.2 (fs s')) items.
Proof.
  revert s. induction items as [|[name p] items IH]; intros s; simpl; [done|].
  unfold bind. destruct (clear_profile (name, p) errors env s) as [s1 [e1|e]] eqn:H1; [|done].
  intros Hrest.
  assert (e1 = errors) as ->.
  { destruct (clear_profile_grows _ _ _ _ _ _ H1) as [more1 ->].
    destruct (clear_profiles_grow _ _ _ _ _ _ Hrest) as [more2 Heq].
    rewrite <- app_assoc in Heq. rewrite <- (app_nil_r errors) in Heq at 1.
    apply app_inv_head in Heq. symmetry in Heq.
    apply app_eq_nil in Heq as [-> _]. by rewrite app_nil_r. }
  apply Forall_cons. split; [|by eapply IH].
  simpl. eapply clean_mono; [|by eapply clear_profile_returns].
  pose proof (only_deletes_clear_profiles items errors env s1) as Hsub.
  by rewrite Hrest in Hsub.
Qed.

Lemma clear_profiles_quiet env s items errors :
  Forall (fun item => clean item.1 item.2 (fs s)) items ->
  exists s', for_each items clear_profile errors env s = (s', Returns errors).
Proof.
  revert s. induction items as [|[name p] items IH]; intros s Hall; simpl.
  - by exists s.
  - apply Forall_cons in Hall as [Hitem Hall]. simpl in Hitem.
    destruct (clear_profile_quiet env s name p errors Hitem) as [s1 H1].
    pose proof (only_deletes_clear_profile (name, p) errors env s) as Hsub.
    rewrite H1 in Hsub. simpl in Hsub.
    unfold bind. rewrite H1. apply IH.
    eapply Forall_impl; [exact Hall|]. intros item. by apply clean_mono.
Qed.

(** When the first call reports no error at all, neither does the second. *)
Lemma clear_browser_data_twice cfg env s s1 :
  clear_browser_data cfg env s = (s1, Returns []) ->
  exists s2, clear_browser_data cfg env s1 = (s2, Returns []).
Proof.
  intros H. apply clear_profiles_all_clean in H. by apply clear_profiles_quiet.
Qed.

(** ** sign_out_services *)


Lemma started_started cmds cmds' s :
  started cmds' (started cmds s) = started (cmds ++ cmds') s.
Proof. unfold started. simpl. by rewrite app_assoc. Qed.



(** The first block starts no command; it returns the errors it was given
    and at most one more, and raises only if the log cannot be written. *)
Lemma github_desktop_block cfg env s errors :
  invoked (sign_out_github_desktop cfg errors env s).1 = invoked s /\
  match (sign_out_github_desktop cfg errors env s).2 with
  | Returns errs =>
      errs = errors \/ exists detail, errs = errors ++ ["GitHub Desktop: " +:+ detail]
  | Raises _ => is_Some (log_fault env)
  end.
Proof.
  unfold sign_out_github_desktop, os_path_exists, os_remove. run.
  destruct (fs s !! _) as [n|] eqn:Hn.
  - rewrite bool_decide_true by eauto. simpl. rewrite Hn.
    destruct (is_dir n); simpl; [destruct (log_fault env); simpl; eauto|].
    destruct (locked n); simpl; [destruct (log_fault env); simpl; eauto|].
    eauto.
  - rewrite bool_decide_false by (by intros [? ?]). simpl. eauto.
Qed.

(** The second block does nothing at all unless [os.name] is ['nt']. *)
Lemma credential_manager_elsewhere env s errors :
  os_name env <> "nt" ->
  sign_out_credential_manager errors env s = (s, Returns errors).
Proof.
  intros H%String.eqb_neq. unfold sign_out_credential_manager. run. by rewrite H.
Qed.

Lemma credential_manager_block env s errors :
  match (sign_out_credential_manager errors env s).2 with
  | Returns errs =>
      errs = errors \/ exists detail, errs = errors ++ ["Windows Credentials: " +:+ detail]
  | Raises _ => is_Some (log_fault env)
  end.
Proof.
  unfold sign_out_credential_manager. unfold bind at 1, ask at 1.
  destruct (String.eqb (os_name env) "nt"); [|simpl; eauto].
  unfold try_except, bind at 1.
  destruct (for_each STORE_TARGETS _ tt env s) as [s1 [[]|e]]; [simpl; eauto|].
  run. destruct (log_fault env); simpl; eauto.
Qed.

(** C7. When [os.name] is not ['nt'], [sign_out_services] is its first block
    and nothing more: the call ends in the state and with the result of the
    GitHub Desktop block alone, and no command has been started, although
    the store targets are configured. *)
Theorem sign_out_services_skips_store cfg env s :
  os_name env <> "nt" ->
  STORE_TARGETS <> [] /\
  sign_out_services cfg env s = sign_out_github_desktop cfg [] env s /\
  invoked (sign_out_services cfg env s).1 = invoked s.
Proof.
  intros Hos. split; [done|].
  assert (Heq : sign_out_services cfg env s = sign_out_github_desktop cfg [] env s).
  { unfold sign_out_services, bind at 1.
    destruct (sign_out_github_desktop cfg [] env s) as [s1 [errors|e]]; [|done].
    by apply credential_manager_elsewhere. }
  split; [done|]. rewrite Heq. apply github_desktop_block.
Qed.


(** C10. [sign_out_services] returns at most two error strings: at most one
    of the GitHub Desktop block, which starts with the service name, then at
    most one of the credential store block, which starts with
    ["Windows Credentials: "].  (A call that does not return has failed to
    write the log.) *)
Theorem sign_out_services_at_most_two cfg env s :
  match (sign_out_services cfg env s).2 with
  | Returns errs =>
      exists file_errs store_errs,
        errs = file_errs ++ store_errs /\
        (length file_errs <= 1)%nat /\ (length store_errs <= 1)%nat /\
        Forall (prefixed "GitHub Desktop: ") file_errs /\
        Forall (prefixed "Windows Credentials: ") store_errs
  | Raises _ => is_Some (log_fault env)
  end.
Proof.
  unfold sign_out_services, bind at 1.
  pose proof (github_desktop_block cfg env s []) as [_ Hfile].
  destruct (sign_out_github_desktop cfg [] env s) as [s1 [file_errs|e]]; [|done].
  pose proof (credential_manager_block env s1 file_errs) as Hstore.
  destruct (sign_out_credential_manager file_errs env s1) as [s2 [errs|e]]; [|done].
  simpl in *. exists file_errs.
  assert (Hf : (length file_errs <= 1)%nat /\ Forall (prefixed "GitHub Desktop: ") file_errs).
  { destruct Hfile as [->|[detail ->]]; simpl; [split; [lia|constructor]|].
    split; [lia|]. repeat constructor. by exists detail. }
  destruct Hf as [Hlen Hpre].
  destruct Hstore as [->|[detail ->]].
  - exists []. rewrite app_nil_r. repeat split; simpl; [lia|lia|done|done].
  - exists ["Windows Credentials: " +:+ detail].
    repeat split; simpl; [lia|lia|done|]. repeat constructor. by exists detail.
Qed.


(** ** What reaches the caller *)

(** While the log can be written, each operation returns a result. *)
Lemma operations_return_when_logged cfg env s :
  log_fault env = None ->
  (exists s' r, flush_dns env s = (s', Returns r)) /\
  (exists s' errs, clear_browser_data cfg env s = (s', Returns errs)) /\
  (exists s' errs, sign_out_services cfg env s = (s', Returns errs)).
Proof.
  intros Hlog. repeat split.
  - unfold flush_dns, try_except.
    destruct (flush_dns_try env s) as [s' [r|e]]; [eauto|].
    run. rewrite Hlog. eauto.
  - destruct (clear_profiles_one_each env s (BROWSER_PROFILES cfg) [] Hlog)
      as (s' & errs & Hrun & _).
    eauto.
  - unfold sign_out_services, bind at 1.
    pose proof (github_desktop_block cfg env s []) as [_ Hfile].
    destruct (sign_out_github_desktop cfg [] env s) as [s1 [errors|e]];
      [|simpl in Hfile; rewrite Hlog in Hfile; by destruct Hfile].
    pose proof (credential_manager_block env s1 errors) as Hstore.
    destruct (sign_out_credential_manager errors env s1) as [s2 [errs|e]];
      [eauto|simpl in Hstore; rewrite Hlog in Hstore; by destruct Hstore].
Qed.

(** So an operation that raises has failed to write the log. *)
Lemma operations_raise_only_without_log cfg env s s' e :
  flush_dns env s = (s', Raises e) \/
  clear_browser_data cfg env s = (s', Raises e) \/
  sign_out_services cfg env s = (s', Raises e) ->
  is_Some (log_fault env).
Proof.
  destruct (log_fault env) as [err|] eqn:Hlog; [eauto|].
  destruct (operations_return_when_logged cfg env s Hlog)
    as ((? & ? & H1) & (? & ? & H2) & (? & ? & H3)).
  intros [H|[H|H]]; congruence.
Qed.

(** C1, where the code departs from it.  Started from a directory in which
    [superflush.log] cannot be opened, each of the three operations lets the
    [OSError] of [log_error] out of its handler: [flush_dns] when
    [systemd-resolve] is missing, [clear_browser_data] when a history file is
    locked, [sign_out_services] when the credential file is locked. *)
Theorem operations_raise_when_log_unwritable :
  flush_dns (read_only_cwd (posix_user "Linux" 1000)) empty_disk
  = (started [["systemd-resolve"; "--flush-caches"]] empty_disk, Raises LOG_DENIED) /\
  clear_browser_data sample_config (read_only_cwd windows_user) chrome_running_disk
  = (chrome_running_disk, Raises LOG_DENIED) /\
  sign_out_services sample_config (read_only_cwd windows_user) busy_disk
  = (busy_disk, Raises LOG_DENIED).
Proof. repeat split; vm_compute; reflexivity. Qed.

(** C2, where the code departs from it.  On Windows without elevation no
    command is started, but when [superflush.log] cannot be opened the caller
    gets the [OSError] of [log_error], not the failure pair. *)
Theorem flush_dns_denial_not_returned :
  platform_system (read_only_cwd windows_user) = "Windows" /\
  is_admin (read_only_cwd windows_user) empty_disk = (empty_disk, Returns (PyInt 0)) /\
  flush_dns_try (read_only_cwd windows_user) empty_disk
  = (empty_disk, Raises (PermissionError NOT_ADMIN_MSG)) /\
  flush_dns (read_only_cwd windows_user) empty_disk = (empty_disk, Raises LOG_DENIED).
Proof. repeat split; vm_compute; reflexivity. Qed.

(** C3, where the code departs from it.  On FreeBSD no command is started and
    the [try] raises the [RuntimeError] that names the platform, but when
    [superflush.log] cannot be opened the caller gets the [OSError] of
    [log_error], not the failure pair. *)
Theorem flush_dns_unsupported_not_returned :
  flush_dns_try (read_only_cwd (posix_user "FreeBSD" 1000)) empty_disk
  = (empty_disk, Raises (RuntimeError "Unsupported OS: FreeBSD")) /\
  flush_dns (read_only_cwd (posix_user "FreeBSD" 1000)) empty_disk
  = (empty_disk, Raises LOG_DENIED).
Proof. repeat split; vm_compute; reflexivity. Qed.

(** ** The claims on sample machines *)

(** C4 fails as stated: with History and Cookies both locked, two deletions
    of chrome would fail, yet the call returns one error string, for History;
    Cookies is never tried, nor is the cache, which stays on disk. *)
Lemma two_locked_files_one_error :
  undeletable_artifacts (fs chrome_running_disk) ["home"; "Chrome"] = ["History"; "Cookies"] /\
  clear_browser_data sample_config windows_user chrome_running_disk
  = (logged "chrome: [Errno 13] Permission denied: 'home/Chrome/History'" chrome_running_disk,
     Returns ["chrome: [Errno 13] Permission denied: 'home/Chrome/History'"]).
Proof. split; vm_compute; reflexivity. Qed.

(** The scenario of the specification: History and Cookies of chrome are
    removed, no error is returned, and ghostbrowser has no effect. *)
Example scenario_ghostbrowser :
  clear_browser_data scenario_config windows_user chrome_disk
  = (disk [(["home"], a_dir); (["home"; "Chrome"], a_dir)], Returns []).
Proof. vm_compute. reflexivity. Qed.

(** C5 on that scenario. *)
Lemma absent_profile_is_skipped_witness :
  (forall s1 errors, fs s1 ⊆ fs chrome_disk ->
     clear_profile ("ghostbrowser", ["home"; "Ghost"]) errors windows_user s1
     = (s1, Returns errors)) /\
  clear_browser_data scenario_config windows_user chrome_disk
  = for_each ([("chrome", ["home"; "Chrome"])] ++ []) clear_profile [] windows_user chrome_disk.
Proof.
  apply (absent_profile_is_skipped scenario_config windows_user chrome_disk
           [("chrome", ["home"; "Chrome"])] "ghostbrowser" ["home"; "Ghost"] []).
  - reflexivity.
  - vm_compute. reflexivity.
Defined.

(** C6 for firefox, after chrome and edge, on a machine where one cache file
    of chrome stays locked. *)
Lemma clear_browser_data_idempotent_witness :
  let run1 := clear_browser_data sample_config windows_user busy_disk in
  let reach2 :=
    for_each [("chrome", ["home"; "Chrome"]); ("edge", ["home"; "Edge"])]
      clear_profile [] windows_user run1.1 in
  run1.2 = Returns [] /\
  exists se,
    clear_profile ("firefox", ["home"; "Firefox"]) [] windows_user reach2.1 = (se, Returns []) /\
    clear_browser_data sample_config windows_user run1.1
    = for_each [] clear_profile [] windows_user se.
Proof.
  intros run1 reach2.
  pose (pre := [("chrome", ["home"; "Chrome"]); ("edge", ["home"; "Edge"])]).
  pose (sa := (for_each pre clear_profile [] windows_user busy_disk).1).
  destruct (clear_browser_data_idempotent sample_config windows_user pre
              "firefox" ["home"; "Firefox"] [] busy_disk sa [] run1.1 run1.1 (Returns [])
              reach2.1 []) as [Hrun Hsecond].
  - reflexivity.
  - vm_compute. reflexivity.
  - vm_compute. reflexivity.
  - reflexivity.
  - vm_compute. reflexivity.
  - split; [|exact Hsecond]. unfold run1. by rewrite Hrun.
Defined.

(** C7 on Linux. *)
Lemma sign_out_services_skips_store_witness :
  STORE_TARGETS <> [] /\
  sign_out_services sample_config (posix_user "Linux" 1000) busy_disk
  = sign_out_github_desktop sample_config [] (posix_user "Linux" 1000) busy_disk /\
  invoked (sign_out_services sample_config (posix_user "Linux" 1000) busy_disk).1
  = invoked busy_disk.
Proof.
  apply (sign_out_services_skips_store sample_config (posix_user "Linux" 1000) busy_disk).
  simpl. discriminate.
Defined.



(** C9 on four machines. *)
Lemma is_admin_fail_safe_witness :
  is_admin windows_no_shell32 empty_disk = (empty_disk, Returns (PyBool false)) /\
  is_admin (posix_user "Linux" 0) empty_disk = (empty_disk, Returns (PyBool true)) /\
  is_admin (posix_user "Linux" 1000) empty_disk = (empty_disk, Returns (PyBool false)) /\
  is_admin no_geteuid empty_disk = (empty_disk, Returns (PyBool false)).
Proof.
  split; [|split; [|split]].
  - apply (proj1 (is_admin_fail_safe windows_no_shell32 empty_disk) eq_refl
             (OtherError "AttributeError" "function 'IsUserAnAdmin' not found") eq_refl).
  - apply (proj1 (proj2 (is_admin_fail_safe (posix_user "Linux" 0) empty_disk))
             ltac:(simpl; discriminate) 0 eq_refl).
  - apply (proj1 (proj2 (is_admin_fail_safe (posix_user "Linux" 1000) empty_disk))
             ltac:(simpl; discriminate) 1000 eq_refl).
  - apply (proj2 (proj2 (is_admin_fail_safe no_geteuid empty_disk))
             ltac:(simpl; discriminate) eq_refl).
Defined.

(** The second scenario of the specification: the credential file is there
    and cannot be deleted; one error string, with the service's name first. *)
Example scenario_credential_file_denied :
  (sign_out_services sample_config (posix_user "Linux" 1000) busy_disk).2
  = Returns ["GitHub Desktop: [Errno 13] Permission denied: 'home/GitHub Desktop/git-credential-desktop.json'"].
Proof. vm_compute. reflexivity. Qed.

(** * More of main.py *)

(** ** What a computation leaves alone *)

Section Frame.

Variable R : State -> State -> Prop.
Hypothesis R_refl : forall s, R s s.
Hypothesis R_trans : forall s1 s2 s3, R s1 s2 -> R s2 s3 -> R s1 s3.

Lemma keeps_ret {A} (a : A) : keeps R (ret a).
Proof. intros env s. apply R_refl. Qed.

Lemma keeps_raise {A} e : keeps R (@raise A e).
Proof. intros env s. apply R_refl. Qed.

Lemma keeps_ask {A} (f : Env -> A) : keeps R (ask f).
Proof. intros env s. apply R_refl. Qed.

Lemma keeps_get {A} (f : State -> A) : keeps R (get f).
Proof. intros env s. apply R_refl. Qed.

Lemma keeps_bind {A B} (m : M A) (k : A -> M B) :
  keeps R m -> (forall a, keeps R (k a)) -> keeps R (bind m k).
Proof.
  intros Hm Hk env s. unfold bind. specialize (Hm env s).
  destruct (m env s) as [s' [a|e]]; simpl in *; [|done].
  eapply R_trans; [exact Hm|apply Hk].
Qed.

Lemma keeps_try_except {A} (m : M A) (h : exn -> M A) :
  keeps R m -> (forall e, keeps R (h e)) -> keeps R (try_except m h).
Proof.
  intros Hm Hh env s. unfold try_except. specialize (Hm env s).
  destruct (m env s) as [s' [a|e]]; simpl in *; [done|].
  eapply R_trans; [exact Hm|apply Hh].
Qed.

Lemma keeps_for_each {A B} (xs : list A) (body : A -> B -> M B) acc :
  (forall x b, x ∈ xs -> keeps R (body x b)) -> keeps R (for_each xs body acc).
Proof.
  revert acc. induction xs as [|x xs IH]; intros acc Hbody; simpl.
  - apply keeps_ret.
  - apply keeps_bind; [apply Hbody; left|].
    intros b. apply IH. intros y c Hy. apply Hbody. by right.
Qed.

Lemma keeps_if {A} (b : bool) (m1 m2 : M A) :
  keeps R m1 -> keeps R m2 -> keeps R (if b then m1 else m2).
Proof. by destruct b. Qed.

End Frame.

Lemma same_files_refl s : same_files s s.
Proof. done. Qed.

Lemma same_files_trans s1 s2 s3 : same_files s1 s2 -> same_files s2 s3 -> same_files s1 s3.
Proof. unfold same_files. congruence. Qed.

Lemma same_commands_refl s : same_commands s s.
Proof. done. Qed.

Lemma same_commands_trans s1 s2 s3 :
  same_commands s1 s2 -> same_commands s2 s3 -> same_commands s1 s3.
Proof. unfold same_commands. congruence. Qed.

Lemma same_at_refl (q : path) s : same_at q s s.
Proof. done. Qed.

Lemma same_at_trans (q : path) s1 s2 s3 :
  same_at q s1 s2 -> same_at q s2 s3 -> same_at q s1 s3.
Proof. unfold same_at. congruence. Qed.

Lemma keeps_log_error R msg :
  (forall s line, R s (logged line s)) -> (forall s, R s s) -> keeps R (log_error msg).
Proof.
  intros Hlog Hrefl env s. unfold log_error. run.
  destruct (log_fault env); simpl; [apply Hrefl|apply Hlog].
Qed.

(** ** flush_dns, branch by branch *)

Lemma check_call_spec env s (c : list string) :
  check_call c env s
  = (started [c] s,
     match spawn env c with
     | inl err => Raises (OSError err (take 1 c))
     | inr status => if status =? 0 then Returns tt else Raises (CalledProcessError status c)
     end).
Proof.
  unfold check_call, launch. run.
  destruct (spawn env c) as [err|status]; [done|]. simpl. by destruct (status =? 0).
Qed.

(** The [try] of [flush_dns] in closed form. *)
Lemma flush_dns_try_spec env s :
  flush_dns_try env s =
    let system := platform_system env in
    if String.eqb system "Windows" && negb (truthy (is_admin_value env))
    then (s, Raises (PermissionError NOT_ADMIN_MSG))
    else if nonempty (dns_commands system)
    then (started (checked env (dns_commands system)).1 s,
          match (checked env (dns_commands system)).2 with
          | None => Returns (true, DNS_OK_MSG)
          | Some e => Raises e
          end)
    else (s, Raises (RuntimeError ("Unsupported OS: " +:+ system))).
Proof.
  unfold flush_dns_try, dns_commands. unfold bind at 1, ask at 1. cbv zeta.
  destruct (String.eqb (platform_system env) "Windows").
  { unfold bind at 1. unfold bind at 1. unfold bind at 1.
    rewrite is_admin_query. destruct (truthy (is_admin_value env)); [|done].
    simpl. rewrite check_call_spec.
    destruct (spawn env _) as [err|status]; [done|]. by destruct (status =? 0). }
  simpl. destruct (String.eqb (platform_system env) "Linux").
  { unfold bind at 1. rewrite check_call_spec. simpl.
    destruct (spawn env _) as [err|status]; [done|]. by destruct (status =? 0). }
  destruct (String.eqb (platform_system env) "Darwin"); [|done].
  unfold bind at 1. unfold bind at 1. rewrite check_call_spec. simpl.
  destruct (spawn env ["dscacheutil"; _]) as [err|status]; [done|].
  destruct (status =? 0); [|done]. rewrite check_call_spec, started_started. simpl.
  destruct (spawn env ["killall"; _; _]) as [err|status']; [done|].
  by destruct (status' =? 0).
Qed.

Lemma checked_all_ok env (cmds : list (list string)) :
  Forall (fun c => spawn env c = inr 0) cmds -> checked env cmds = (cmds, None).
Proof.
  induction cmds as [|c cmds IH]; intros Hall; simpl; [done|].
  apply Forall_cons in Hall as [Hc Hall]. rewrite Hc. simpl. by rewrite IH.
Qed.

Lemma checked_none env (cmds : list (list string)) :
  (checked env cmds).2 = None -> Forall (fun c => spawn env c = inr 0) cmds.
Proof.
  induction cmds as [|c cmds IH]; simpl; [done|].
  destruct (spawn env c) as [err|status] eqn:Hc; [simpl; done|].
  destruct (Z.eqb_spec status 0) as [->|]; [|simpl; done].
  simpl. intros H. apply Forall_cons. split; [done|by apply IH].
Qed.

Lemma checked_prefix env (cmds : list (list string)) :
  (checked env cmds).1 `prefix_of` cmds.
Proof.
  induction cmds as [|c cmds IH]; simpl; [done|].
  destruct (spawn env c) as [err|status]; simpl.
  - by exists cmds.
  - destruct (status =? 0); simpl; [by apply prefix_cons|by exists cmds].
Qed.

(** The state and the result of [flush_dns], from those of its [try]. *)
Lemma flush_dns_spec env s :
  flush_dns env s =
    match flush_dns_try env s with
    | (s', Returns r) => (s', Returns r)
    | (s', Raises e) =>
        match log_fault env with
        | None => (logged ("DNS flush error: " +:+ str_of env e) s', Returns (false, str_of env e))
        | Some err => (s', Raises (OSError err ["superflush.log"]))
        end
    end.
Proof.
  destruct (flush_dns_try env s) as [s' [r|e]] eqn:Htry.
  - unfold flush_dns, try_except. by rewrite Htry.
  - by apply flush_dns_handler.
Qed.

Lemma flush_dns_when_flushable env s :
  dns_flushable env ->
  flush_dns env s
  = (started (dns_commands (platform_system env)) s, Returns (true, DNS_OK_MSG)).
Proof.
  rewrite flush_dns_spec, flush_dns_try_spec. cbv zeta.
  intros (Hcmds & Hadmin & Hall).
  destruct (String.eqb_spec (platform_system env) "Windows") as [Hw|Hw]; simpl.
  + rewrite (Hadmin Hw). simpl.
    destruct (dns_commands (platform_system env)) as [|c cs] eqn:Hc; [done|].
    simpl nonempty. cbv iota. by rewrite (checked_all_ok _ _ Hall).
  + destruct (dns_commands (platform_system env)) as [|c cs] eqn:Hc; [done|].
    simpl nonempty. cbv iota. by rewrite (checked_all_ok _ _ Hall).
Qed.

Lemma flush_dns_true_flushable env s s' msg :
  flush_dns env s = (s', Returns (true, msg)) -> dns_flushable env.
Proof.
  rewrite flush_dns_spec, flush_dns_try_spec. cbv zeta. unfold dns_flushable.
  destruct (String.eqb_spec (platform_system env) "Windows") as [Hw|Hw]; simpl.
  + destruct (truthy (is_admin_value env)) eqn:Hadm; simpl;
      [|intros H; destruct (log_fault env); discriminate H].
    destruct (dns_commands (platform_system env)) as [|c cs] eqn:Hc; simpl nonempty; cbv iota;
      [intros H; destruct (log_fault env); discriminate H|].
    destruct (checked env (c :: cs)).2 as [e|] eqn:Hch; [intros H; destruct (log_fault env); discriminate H|].
    intros _. split; [done|]. split; [done|by apply checked_none].
  + destruct (dns_commands (platform_system env)) as [|c cs] eqn:Hc; simpl nonempty; cbv iota;
      [intros H; destruct (log_fault env); discriminate H|].
    destruct (checked env (c :: cs)).2 as [e|] eqn:Hch; [intros H; destruct (log_fault env); discriminate H|].
    intros _. split; [done|]. split; [done|by apply checked_none].
Qed.

(** X1. [flush_dns] reports success exactly when the platform has a branch,
    the session is elevated if the platform is Windows, and every command of
    the platform exits with status 0; it has then started all of them, in
    order, written nothing to the log, and answers the fixed message. *)
Theorem flush_dns_succeeds_iff env s :
  (dns_flushable env ->
   flush_dns env s
   = (started (dns_commands (platform_system env)) s, Returns (true, DNS_OK_MSG))) /\
  (forall s' msg, flush_dns env s = (s', Returns (true, msg)) -> dns_flushable env).
Proof.
  split; [apply flush_dns_when_flushable|].
  intros s' msg. apply flush_dns_true_flushable.
Qed.

Lemma flush_dns_invoked env s :
  invoked (flush_dns env s).1
  = invoked s ++
    (if String.eqb (platform_system env) "Windows" && negb (truthy (is_admin_value env))
     then [] else (checked env (dns_commands (platform_system env))).1).
Proof.
  rewrite flush_dns_spec, flush_dns_try_spec. cbv zeta.
  destruct (_ && _); [destruct (log_fault env); simpl; by rewrite app_nil_r|].
  destruct (dns_commands (platform_system env)) as [|c cs]; simpl nonempty; cbv iota.
  - destruct (log_fault env); simpl; by rewrite app_nil_r.
  - destruct (checked env (c :: cs)).2; [|done]. by destruct (log_fault env).
Qed.

(** X2. The commands [flush_dns] starts are the commands of the platform,
    in order, up to and including the first that cannot be started or exits
    with a status other than 0; none at all on Windows without elevation.
    Nothing else is ever started. *)
Theorem flush_dns_commands env s :
  invoked (flush_dns env s).1
  = invoked s ++
    (if String.eqb (platform_system env) "Windows" && negb (truthy (is_admin_value env))
     then [] else (checked env (dns_commands (platform_system env))).1) /\
  (checked env (dns_commands (platform_system env))).1
    `prefix_of` dns_commands (platform_system env).
Proof. split; [apply flush_dns_invoked|apply checked_prefix]. Qed.

(** X3. On macOS [killall -HUP mDNSResponder] is started exactly when
    [dscacheutil -flushcache] was started and exited with status 0;
    [dscacheutil] itself is always started. *)
Theorem flush_dns_macos env s :
  platform_system env = "Darwin" ->
  invoked (flush_dns env s).1
  = invoked s ++ ["dscacheutil"; "-flushcache"] ::
      match spawn env ["dscacheutil"; "-flushcache"] with
      | inr 0 => [["killall"; "-HUP"; "mDNSResponder"]]
      | _ => []
      end.
Proof.
  intros Hsys. rewrite flush_dns_invoked, Hsys. simpl. f_equal.
  destruct (spawn env ["dscacheutil"; _]) as [err|status]; [done|].
  destruct (Z.eqb_spec status 0) as [->|Hne]; simpl.
  - by destruct (spawn env ["killall"; _; _]) as [?|st]; [|destruct (st =? 0)].
  - by destruct status.
Qed.

(** X4. When [flush_dns] answers [(False, msg)] it has added the one line
    ["DNS flush error: " + msg] to the log; when it answers [(True, msg)] the
    log is as before and [msg] is the fixed text. *)
Theorem flush_dns_result_logged env s s' ok msg :
  flush_dns env s = (s', Returns (ok, msg)) ->
  if ok then msg = DNS_OK_MSG /\ log s' = log s
  else log s' = log s ++ ["DNS flush error: " +:+ msg].
Proof.
  rewrite flush_dns_spec, flush_dns_try_spec. cbv zeta.
  destruct (_ && _).
  { destruct (log_fault env); [done|]. by intros [= <- <- <-]. }
  destruct (nonempty _).
  - destruct (checked env _).2 as [e|].
    + destruct (log_fault env); [done|]. by intros [= <- <- <-].
    + by intros [= <- <- <-].
  - destruct (log_fault env); [done|]. by intros [= <- <- <-].
Qed.

(** ** What the system calls leave alone *)

Lemma same_log_refl s : same_log s s.
Proof. done. Qed.

Lemma same_log_trans s1 s2 s3 : same_log s1 s2 -> same_log s2 s3 -> same_log s1 s3.
Proof. unfold same_log. congruence. Qed.

Lemma stays_refl (q : path) n s : stays q n s s.
Proof. by intros H. Qed.

Lemma stays_trans (q : path) n s1 s2 s3 :
  stays q n s1 s2 -> stays q n s2 s3 -> stays q n s1 s3.
Proof. unfold stays. auto. Qed.

(** A computation that only assigns [fs] keeps the log and the commands. *)
Lemma keeps_os_remove R (p : path) :
  (forall s, R s s) -> (forall s, R s (set_fs (delete p (fs s)) s)) -> keeps R (os_remove p).
Proof.
  intros Hrefl Hdel env s. unfold os_remove. run.
  destruct (fs s !! p) as [n|]; [|apply Hrefl].
  destruct (is_dir n); [apply Hrefl|]. destruct (locked n); [apply Hrefl|apply Hdel].
Qed.

Lemma keeps_os_listdir R (p : path) : (forall s, R s s) -> keeps R (os_listdir p).
Proof.
  intros Hrefl env s. unfold os_listdir. run.
  destruct (fs s !! p) as [n|]; [|apply Hrefl]. destruct (is_dir n); apply Hrefl.
Qed.

Lemma keeps_launch R (argv : list string) :
  (forall s, R s (started [argv] s)) -> keeps R (launch argv).
Proof.
  intros Hrun env s. unfold launch. run. destruct (spawn env argv); apply Hrun.
Qed.

Ltac frame Hrefl Htrans :=
  repeat first
    [ apply keeps_ret; exact Hrefl
    | apply keeps_raise; exact Hrefl
    | apply keeps_ask; exact Hrefl
    | apply keeps_get; exact Hrefl
    | apply keeps_os_listdir; exact Hrefl
    | apply keeps_log_error; [intros ? ?; hnf; by intros|exact Hrefl]
    | apply keeps_os_remove; [exact Hrefl|by intros]
    | (intros ? ?; reflexivity)
    | apply keeps_bind; [exact Htrans| |intros ?]
    | apply keeps_try_except; [exact Htrans| |intros ?]
    | apply keeps_if ].

(** The try of one browser writes no log line and starts no command. *)
Lemma clear_profile_try_same_log (name : string) (p : path) :
  keeps same_log (clear_profile_try name p).
Proof.
  unfold clear_profile_try, clear_entry, os_path_exists, os_path_isdir.
  apply keeps_bind; [exact same_log_trans| |intros ?].
  - apply keeps_for_each; [exact same_log_refl|exact same_log_trans|]. intros entry [] _.
    frame same_log_refl same_log_trans.
  - apply keeps_if; [|frame same_log_refl same_log_trans].
    apply keeps_bind; [exact same_log_trans|frame same_log_refl same_log_trans|intros names].
    apply keeps_for_each; [exact same_log_refl|exact same_log_trans|]. by intros.
Qed.

Lemma clear_profile_same_commands item errors :
  keeps same_commands (clear_profile item errors).
Proof.
  destruct item as [name p].
  unfold clear_profile, clear_profile_try, clear_entry, os_path_exists, os_path_isdir, str.
  apply keeps_bind; [exact same_commands_trans|frame same_commands_refl same_commands_trans|].
  intros present. apply keeps_if; [|frame same_commands_refl same_commands_trans].
  apply keeps_try_except; [exact same_commands_trans| |intros e;
    frame same_commands_refl same_commands_trans].
  apply keeps_bind; [exact same_commands_trans| |intros ?;
    frame same_commands_refl same_commands_trans].
  apply keeps_bind; [exact same_commands_trans| |intros ?].
  - apply keeps_for_each; [exact same_commands_refl|exact same_commands_trans|].
    intros entry [] _. frame same_commands_refl same_commands_trans.
  - apply keeps_if; [|frame same_commands_refl same_commands_trans].
    apply keeps_bind;
      [exact same_commands_trans|frame same_commands_refl same_commands_trans|intros names].
    apply keeps_for_each; [exact same_commands_refl|exact same_commands_trans|]. by intros.
Qed.

(** X5. [clear_browser_data] never starts a command, whether it returns or
    raises. *)
Theorem clear_browser_data_starts_nothing cfg env s :
  invoked (clear_browser_data cfg env s).1 = invoked s.
Proof.
  apply (keeps_for_each same_commands same_commands_refl same_commands_trans).
  intros item errors _. apply clear_profile_same_commands.
Qed.

Lemma clear_profile_logged env s s' item errors errs :
  clear_profile item errors env s = (s', Returns errs) ->
  exists more, errs = errors ++ more /\ log s' = log s ++ more.
Proof.
  destruct item as [name p]. unfold clear_profile, os_path_exists. run.
  destruct (bool_decide _).
  - pose proof (clear_profile_try_same_log name p env s) as Hlog.
    destruct (clear_profile_try name p env s) as [s1 [[]|e]]; simpl in Hlog.
    + intros [= <- <-]. exists []. by rewrite !app_nil_r.
    + destruct (log_fault env); [done|]. intros [= <- <-]. eexists. split; [done|].
      simpl. by rewrite Hlog.
  - intros [= <- <-]. exists []. by rewrite !app_nil_r.
Qed.

Lemma clear_profiles_logged env s s' items errors errs :
  for_each items clear_profile errors env s = (s', Returns errs) ->
  exists more, errs = errors ++ more /\ log s' = log s ++ more.
Proof.
  revert s errors. induction items as [|item items IH]; intros s errors; simpl.
  - intros [= <- <-]. exists []. by rewrite !app_nil_r.
  - unfold bind. destruct (clear_profile item errors env s) as [s1 [e1|e]] eqn:H1; [|done].
    intros (more2 & -> & Hlog2)%IH.
    apply clear_profile_logged in H1 as (more1 & -> & Hlog1).
    exists (more1 ++ more2). rewrite Hlog2, Hlog1. by rewrite !app_assoc.
Qed.

(** X6. The error strings [clear_browser_data] returns are the lines it
    added to the log, in the same order, and it added no other line. *)
Theorem clear_browser_data_logs_its_errors cfg env s s' errs :
  clear_browser_data cfg env s = (s', Returns errs) ->
  log s' = log s ++ errs.
Proof. by intros (more & -> & Hlog)%clear_profiles_logged. Qed.

Lemma path_join_prefix_inj (p : path) (a b : string) :
  path_join p a `prefix_of` path_join p b -> a = b.
Proof.
  intros H. apply prefix_length_eq in H.
  - unfold path_join in H. by apply app_inj_tail in H as [_ ?].
  - unfold path_join. rewrite !length_app. simpl. lia.
Qed.

Lemma keeps_same_at_rmtree (q t : path) :
  ~ t `prefix_of` q -> keeps (same_at q) (shutil_rmtree t).
Proof. intros H env s. by apply rmtree_fs_lookup_outside. Qed.

Lemma clear_profile_try_same_at (name : string) (p q : path) :
  ~ targeted name p q -> keeps (same_at q) (clear_profile_try name p).
Proof.
  intros Hq. unfold clear_profile_try.
  apply keeps_bind; [exact (same_at_trans q)| |intros ?].
  - apply keeps_for_each; [exact (same_at_refl q)|exact (same_at_trans q)|].
    intros entry [] Hentry env s. apply clear_entry_lookup_outside.
    intros Hpre. apply Hq. left. eauto.
  - destruct (String.eqb_spec name "firefox") as [Hname|_];
      [|apply keeps_ret; exact (same_at_refl q)].
    apply keeps_bind; [exact (same_at_trans q)| |intros names].
    + apply keeps_os_listdir. exact (same_at_refl q).
    + apply keeps_for_each; [exact (same_at_refl q)|exact (same_at_trans q)|].
      intros x [] _. apply keeps_same_at_rmtree. intros Hpre. apply Hq. right. eauto.
Qed.

Lemma clear_profile_same_at (name : string) (p q : path) errors :
  ~ targeted name p q -> keeps (same_at q) (clear_profile (name, p) errors).
Proof.
  intros Hq. unfold clear_profile, os_path_exists, str.
  apply keeps_bind; [exact (same_at_trans q)|frame (same_at_refl q) (same_at_trans q)|].
  intros present. apply keeps_if; [|frame (same_at_refl q) (same_at_trans q)].
  apply keeps_try_except; [exact (same_at_trans q)| |intros e;
    frame (same_at_refl q) (same_at_trans q)].
  apply keeps_bind; [exact (same_at_trans q)| |intros ?;
    frame (same_at_refl q) (same_at_trans q)].
  by apply clear_profile_try_same_at.
Qed.

(** X7. [clear_browser_data] is confined to its targets.  An entry of the
    file system, a file named as the log apart, that is neither at or below
    one of the
    four artifacts of a configured profile nor strictly below the firefox
    profile root is the same after the call as before, whether the call
    returns or raises; so bookmarks, preferences and the profile directories
    themselves stay. *)
Theorem clear_browser_data_confined cfg env s (q : path) :
  ~ is_log_file q ->
  (forall name p, (name, p) ∈ BROWSER_PROFILES cfg -> ~ targeted name p q) ->
  fs (clear_browser_data cfg env s).1 !! q = fs s !! q.
Proof.
  intros _ Hq.
  apply (keeps_for_each (same_at q) (same_at_refl q) (same_at_trans q)).
  intros [name p] errors Hin. apply clear_profile_same_at. by apply Hq.
Qed.

Lemma keeps_stays_rmtree (q t : path) n :
  is_dir n = false -> t = q \/ ~ t `prefix_of` q ->
  keeps (stays q n) (shutil_rmtree t).
Proof.
  intros Hfile Ht env s Hq. simpl. destruct Ht as [->|Ht].
  - unfold rmtree_fs. by rewrite Hq, Hfile.
  - by rewrite rmtree_fs_lookup_outside.
Qed.

Lemma keeps_stays_of_same_at {A} (q : path) n (m : M A) :
  keeps (same_at q) m -> keeps (stays q n) m.
Proof. intros H env s Hq. by rewrite (H env s). Qed.

(** X8. A regular file directly under a profile root whose name is not one
    of the four artifacts survives the turn of that browser, under firefox
    too: the sweep over the firefox profiles calls [rmtree] on it, which does
    nothing to what is not a directory. *)
Theorem clear_profile_keeps_plain_files env s (name : string) (p : path) (x : string) n errors :
  x ∉ ARTIFACTS ->
  fs s !! path_join p x = Some n -> is_dir n = false ->
  fs (clear_profile (name, p) errors env s).1 !! path_join p x = Some n.
Proof.
  intros Hx Hn Hfile. set (q := path_join p x).
  assert (Hkeep : keeps (stays q n) (clear_profile (name, p) errors)); [|by apply Hkeep].
  pose proof (stays_refl q n) as Hrefl. pose proof (stays_trans q n) as Htrans.
  unfold clear_profile, os_path_exists, str.
  apply keeps_bind; [exact Htrans|frame Hrefl Htrans|].
  intros present. apply keeps_if; [|frame Hrefl Htrans].
  apply keeps_try_except; [exact Htrans| |intros e; frame Hrefl Htrans].
  apply keeps_bind; [exact Htrans| |intros ?; frame Hrefl Htrans].
  unfold clear_profile_try. apply keeps_bind; [exact Htrans| |intros ?].
  - apply keeps_for_each; [exact Hrefl|exact Htrans|].
    intros entry [] Hentry. apply keeps_stays_of_same_at.
    intros env' s'. apply clear_entry_lookup_outside.
    intros Hpre%path_join_prefix_inj. by subst.
  - apply keeps_if; [|frame Hrefl Htrans].
    apply keeps_bind; [exact Htrans|frame Hrefl Htrans|intros names].
    apply keeps_for_each; [exact Hrefl|exact Htrans|].
    intros c [] _. apply keeps_stays_rmtree; [done|].
    destruct (decide (c = x)) as [->|Hne]; [by left|right].
    intros Hpre%path_join_prefix_inj. done.
Qed.

(** ** When nothing is locked *)







Lemma entries_absent env s (p : path) (entries : list string) :
  Forall (fun entry => fs s !! path_join p entry = None) entries ->
  for_each entries (fun entry _ => clear_entry p entry) tt env s = (s, Returns tt).
Proof.
  induction entries as [|e entries IH]; intros Hall; simpl; [done|].
  apply Forall_cons in Hall as [He Hall]. unfold bind.
  assert (clear_entry p e env s = (s, Returns tt)) as ->; [|by apply IH].
  unfold clear_entry, os_path_exists. run.
  by rewrite He, bool_decide_false by (by intros [? ?]).
Qed.

(** X10. A profile path that is a regular file: for firefox the listing of
    the root fails and the turn reports ["firefox: " + detail] (the log being
    writable), for every other browser the turn does nothing and reports
    nothing. *)
Theorem profile_root_not_a_directory env s (p : path) n errors :
  log_fault env = None ->
  fs s !! p = Some n -> is_dir n = false ->
  Forall (fun entry => fs s !! path_join p entry = None) ARTIFACTS ->
  let err_msg := "firefox: " +:+ strerror env ENOTDIR p in
  clear_profile ("firefox", p) errors env s = (logged err_msg s, Returns (errors ++ [err_msg])) /\
  (forall name, name <> "firefox" ->
     clear_profile (name, p) errors env s = (s, Returns errors)).
Proof.
  intros Hlog Hp Hfile Habsent err_msg. split.
  - unfold clear_profile, os_path_exists. run. rewrite Hp, bool_decide_true by eauto.
    unfold clear_profile_try, bind at 1. rewrite (entries_absent _ _ _ _ Habsent).
    simpl. unfold os_listdir. run. by rewrite Hp, Hfile, Hlog.
  - intros name Hname%String.eqb_neq.
    unfold clear_profile, os_path_exists. run. rewrite Hp, bool_decide_true by eauto.
    unfold clear_profile_try, bind at 1. rewrite (entries_absent _ _ _ _ Habsent).
    by rewrite Hname.
Qed.

(** ** sign_out_services: files, commands, log *)

Lemma cmdkey_loop_same_files (targets : list string) :
  keeps same_files
    (for_each targets
       (fun target _ => subprocess_run ["cmdkey"; "/delete"; target] ;; ret tt) tt).
Proof.
  apply keeps_for_each; [exact same_files_refl|exact same_files_trans|].
  intros target [] _. unfold subprocess_run.
  apply keeps_bind; [exact same_files_trans|by apply keeps_launch|intros ?].
  apply keeps_ret. exact same_files_refl.
Qed.

Lemma cmdkey_loop_same_log (targets : list string) :
  keeps same_log
    (for_each targets
       (fun target _ => subprocess_run ["cmdkey"; "/delete"; target] ;; ret tt) tt).
Proof.
  apply keeps_for_each; [exact same_log_refl|exact same_log_trans|].
  intros target [] _. unfold subprocess_run.
  apply keeps_bind; [exact same_log_trans|by apply keeps_launch|intros ?].
  apply keeps_ret. exact same_log_refl.
Qed.

Lemma credential_manager_same_files errors :
  keeps same_files (sign_out_credential_manager errors).
Proof.
  unfold sign_out_credential_manager, str.
  apply keeps_bind; [exact same_files_trans|frame same_files_refl same_files_trans|].
  intros name. apply keeps_if; [|frame same_files_refl same_files_trans].
  apply keeps_try_except; [exact same_files_trans| |intros e;
    frame same_files_refl same_files_trans].
  apply keeps_bind; [exact same_files_trans|apply cmdkey_loop_same_files|intros ?].
  frame same_files_refl same_files_trans.
Qed.

Lemma github_desktop_same_at cfg errors (q : path) :
  q <> cred_file cfg -> keeps (same_at q) (sign_out_github_desktop cfg errors).
Proof.
  intros Hq. unfold sign_out_github_desktop, os_path_exists, str.
  apply keeps_try_except; [exact (same_at_trans q)| |intros e;
    frame (same_at_refl q) (same_at_trans q)].
  apply keeps_bind; [exact (same_at_trans q)|frame (same_at_refl q) (same_at_trans q)|].
  intros present.
  apply keeps_bind; [exact (same_at_trans q)| |intros ?;
    frame (same_at_refl q) (same_at_trans q)].
  apply keeps_if; [|frame (same_at_refl q) (same_at_trans q)].
  apply keeps_os_remove; [exact (same_at_refl q)|].
  intros s. unfold same_at. simpl. apply lookup_delete_ne. by intros <-.
Qed.

(** X11. A file named as the log apart, the only entry of the file system
    [sign_out_services] can change is the GitHub Desktop credential file:
    every other path holds after the call what it held before, whether the
    call returns or raises. *)
Theorem sign_out_services_touches_one_file cfg env s (q : path) :
  ~ is_log_file q ->
  q <> cred_file cfg ->
  fs (sign_out_services cfg env s).1 !! q = fs s !! q.
Proof.
  intros _ Hq. unfold sign_out_services.
  apply (keeps_bind (same_at q) (same_at_trans q)).
  - by apply github_desktop_same_at.
  - intros errors env' s'. unfold same_at.
    by rewrite (credential_manager_same_files errors env' s').
Qed.

(** X12. A credential file that is a regular file and is not locked is
    removed by the file block, which adds no error and writes no log line;
    it is still gone when [sign_out_services] ends, on every platform and
    whatever the credential manager does. *)
Theorem sign_out_services_removes_credential_file cfg env s n :
  fs s !! cred_file cfg = Some n -> is_dir n = false -> locked n = false ->
  sign_out_github_desktop cfg [] env s
  = (set_fs (delete (cred_file cfg) (fs s)) s, Returns []) /\
  fs (sign_out_services cfg env s).1 !! cred_file cfg = None.
Proof.
  intros Hn Hfile Hfree.
  assert (Hblock : sign_out_github_desktop cfg [] env s
                   = (set_fs (delete (cred_file cfg) (fs s)) s, Returns [])).
  { unfold cred_file in *. unfold sign_out_github_desktop, os_path_exists, os_remove. run.
    rewrite Hn, bool_decide_true by eauto. simpl. by rewrite Hn, Hfile, Hfree. }
  split; [done|]. unfold sign_out_services, bind at 1. rewrite Hblock.
  rewrite (credential_manager_same_files [] env _). simpl. apply lookup_delete_eq.
Qed.

(** X13. A directory in the place of the credential file is not removed:
    [os.remove] fails on it, the file block logs and reports one error
    string that starts with ["GitHub Desktop: "] (the log being writable),
    and the directory is still there when [sign_out_services] ends. *)
Theorem sign_out_services_credential_directory cfg env s n :
  log_fault env = None ->
  fs s !! cred_file cfg = Some n -> is_dir n = true ->
  exists detail,
    sign_out_github_desktop cfg [] env s
    = (logged ("GitHub Desktop: " +:+ detail) s, Returns ["GitHub Desktop: " +:+ detail]) /\
    fs (sign_out_services cfg env s).1 !! cred_file cfg = Some n.
Proof.
  intros Hlog Hn Hdir. exists (strerror env EISDIR (cred_file cfg)).
  assert (Hblock : sign_out_github_desktop cfg [] env s
                   = (logged ("GitHub Desktop: " +:+ strerror env EISDIR (cred_file cfg)) s,
                      Returns ["GitHub Desktop: " +:+ strerror env EISDIR (cred_file cfg)])).
  { unfold cred_file in *. unfold sign_out_github_desktop, os_path_exists, os_remove. run.
    rewrite Hn, bool_decide_true by eauto. simpl. by rewrite Hn, Hdir, Hlog. }
  split; [done|]. unfold sign_out_services, bind at 1. rewrite Hblock.
  by rewrite (credential_manager_same_files _ env _).
Qed.

Lemma cmdkey_loop_invoked env s (targets : list string) :
  invoked (for_each targets
             (fun target _ => subprocess_run ["cmdkey"; "/delete"; target] ;; ret tt)
             tt env s).1
  = invoked s ++ attempted env targets.
Proof.
  revert s. induction targets as [|t targets IH]; intros s; simpl.
  - by rewrite app_nil_r.
  - unfold cmdkey_delete at 2. run.
    destruct (spawn env ["cmdkey"; "/delete"; t]) as [err|status]; simpl; [done|].
    etrans; [exact (IH {| fs := fs s; log := log s;
                          invoked := invoked s ++ [["cmdkey"; "/delete"; t]] |})|].
    simpl. by rewrite <- app_assoc.
Qed.

Lemma attempted_prefix env (targets : list string) :
  attempted env targets `prefix_of` map cmdkey_delete targets.
Proof.
  induction targets as [|t targets IH]; simpl; [done|].
  apply prefix_cons. destruct (spawn env (cmdkey_delete t)); [apply prefix_nil|done].
Qed.

(** X14. The commands [sign_out_services] starts: none when the file block
    raises or [os.name] is not ['nt']; otherwise [cmdkey /delete] on the
    store targets, in their order, one for each target up to and including
    the first whose command cannot be started.  It never starts any other
    command. *)
Theorem sign_out_services_commands cfg env s :
  invoked (sign_out_services cfg env s).1
  = invoked s ++
    match (sign_out_github_desktop cfg [] env s).2 with
    | Returns _ =>
        if String.eqb (os_name env) "nt" then attempted env STORE_TARGETS else []
    | Raises _ => []
    end /\
  attempted env STORE_TARGETS `prefix_of` map cmdkey_delete STORE_TARGETS.
Proof.
  split; [|apply attempted_prefix].
  unfold sign_out_services, bind at 1.
  pose proof (github_desktop_block cfg env s []) as [Hinv _].
  destruct (sign_out_github_desktop cfg [] env s) as [s1 [errors|e]]; simpl in Hinv;
    [|simpl; by rewrite Hinv, app_nil_r].
  cbv beta iota. change ((s1, Returns errors).2) with (Returns (A:=list string) errors).
  cbv iota.
  unfold sign_out_credential_manager, bind at 1, ask at 1.
  destruct (String.eqb (os_name env) "nt");
    [|simpl; by rewrite Hinv, app_nil_r].
  rewrite <- Hinv, <- (cmdkey_loop_invoked env s1 STORE_TARGETS).
  unfold try_except, bind at 1.
  destruct (for_each STORE_TARGETS _ tt env s1) as [s2 [[]|e]]; [done|].
  run. by destruct (log_fault env).
Qed.

Lemma sign_out_services_logged cfg env s s' errs :
  sign_out_services cfg env s = (s', Returns errs) ->
  log s' = log s ++ errs.
Proof.
  unfold sign_out_services, bind at 1.
  destruct (sign_out_github_desktop cfg [] env s) as [s1 [errors|e]] eqn:Hfile; [|done].
  assert (Hlog1 : log s1 = log s ++ errors).
  { revert Hfile. unfold sign_out_github_desktop, os_path_exists, os_remove. run.
    destruct (bool_decide _); simpl.
    - destruct (fs s !! _) as [n|]; simpl.
      + destruct (is_dir n); simpl.
        * destruct (log_fault env); [done|]. by intros [= <- <-].
        * destruct (locked n); simpl.
          -- destruct (log_fault env); [done|]. by intros [= <- <-].
          -- intros [= <- <-]. simpl. by rewrite app_nil_r.
      + destruct (log_fault env); [done|]. by intros [= <- <-].
    - intros [= <- <-]. by rewrite app_nil_r. }
  unfold sign_out_credential_manager, bind at 1, ask at 1.
  destruct (String.eqb (os_name env) "nt"); [|by intros [= <- <-]].
  unfold try_except, bind at 1.
  pose proof (cmdkey_loop_same_log STORE_TARGETS env s1) as Hloop.
  destruct (for_each STORE_TARGETS _ tt env s1) as [s2 [[]|e]]; simpl in Hloop.
  - intros [= <- <-]. by rewrite Hloop.
  - run. destruct (log_fault env); [done|]. intros [= <- <-]. simpl.
    by rewrite Hloop, Hlog1, app_assoc.
Qed.

(** X15. The error strings [sign_out_services] returns are the lines it
    added to the log, in the same order, and it added no other line. *)
Theorem sign_out_services_logs_its_errors cfg env s s' errs :
  sign_out_services cfg env s = (s', Returns errs) ->
  log s' = log s ++ errs.
Proof. apply sign_out_services_logged. Qed.

(** ** The button handlers *)


(** X16. With the log writable, the Flush DNS button ends with the status
    bar back on ["Ready."] and exactly one more message box: the information
    box with the fixed message when the flush can succeed, and the error box
    otherwise. *)
Theorem action_flush_dialog env s ui :
  log_fault env = None ->
  (dns_flushable env ->
   action_flush env s ui
   = (started (dns_commands (platform_system env)) s,
      {| status_var := "Ready.";
         dialogs := dialogs ui ++ [Dialog showinfo "Flush DNS" DNS_OK_MSG] |},
      Returns tt)) /\
  (~ dns_flushable env ->
   exists s' msg,
     action_flush env s ui
     = (s',
        {| status_var := "Ready.";
           dialogs := dialogs ui ++ [Dialog showerror "Flush DNS Error" msg] |},
        Returns tt)).
Proof.
  intros Hlog. split.
  - intros Hok. unfold action_flush, gbind, call, set_status.
    by rewrite (flush_dns_when_flushable env s Hok).
  - intros Hno.
    destruct (operations_return_when_logged
                {| BROWSER_PROFILES := []; GIT_DESKTOP_CREDENTIALS := [] |} env s Hlog)
      as ((s' & [ok msg] & Hrun) & _).
    destruct ok; [by apply flush_dns_true_flushable in Hrun|].
    exists s', msg. unfold action_flush, gbind, call, set_status. by rewrite Hrun.
Qed.

(** X17. Run All, when the three operations return: they run in the order
    flush, clear, sign out, each from the state the one before left, and the
    one message box is the information box ["Superflush Report"], also when
    the flush failed or errors were collected; its text is the flush message
    and then the errors of the two other operations, one per line. *)
Theorem action_all_report cfg env s ui s1 r s2 cleared s3 signed :
  flush_dns env s = (s1, Returns r) ->
  clear_browser_data cfg env s1 = (s2, Returns cleared) ->
  sign_out_services cfg env s2 = (s3, Returns signed) ->
  action_all cfg env s ui
  = (s3,
     {| status_var := "Ready.";
        dialogs := dialogs ui ++
          [Dialog showinfo "Superflush Report" (String.concat NL (r.2 :: cleared ++ signed))] |},
     Returns tt).
Proof.
  intros Hflush Hclear Hsign. unfold action_all, gbind, call, set_status.
  rewrite Hflush, Hclear, Hsign. simpl. by destruct (cleared ++ signed).
Qed.


(** X19. What the Clear Browser Data and Sign Out buttons show is what the
    log got: when the operation returns, the handler opens one box, the
    success box if no line was added to the log and otherwise the warning
    box whose text is the added lines, one per line; the status bar is back
    on ["Ready."]. *)
Theorem report_box_matches_log cfg env s ui :
  (forall s' errs,
     clear_browser_data cfg env s = (s', Returns errs) ->
     log s' = log s ++ errs /\
     action_clear cfg env s ui
     = (s',
        {| status_var := "Ready.";
           dialogs := dialogs ui ++
             [report_box "Clear Data" "Browser data cleared successfully." errs] |},
        Returns tt)) /\
  (forall s' errs,
     sign_out_services cfg env s = (s', Returns errs) ->
     log s' = log s ++ errs /\
     action_signout cfg env s ui
     = (s',
        {| status_var := "Ready.";
           dialogs := dialogs ui ++
             [report_box "Sign Out" "Signed out of services successfully." errs] |},
        Returns tt)).
Proof.
  split; intros s' errs Hrun.
  - split.
    + destruct (clear_profiles_logged env s s' (BROWSER_PROFILES cfg) [] errs Hrun)
        as (more & Heq & Hlog).
      simpl in Heq. by subst.
    + unfold action_clear, gbind, call, set_status, report_box. rewrite Hrun. simpl.
      by destruct (nonempty errs).
  - split; [exact (sign_out_services_logged _ _ _ _ _ Hrun)|].
    unfold action_signout, gbind, call, set_status, report_box. rewrite Hrun. simpl.
    by destruct (nonempty errs).
Qed.

(** ** The further properties on sample machines *)

(** X3 on a Mac where both commands succeed. *)
Lemma flush_dns_macos_witness :
  invoked (flush_dns (posix_user "Darwin" 501) empty_disk).1
  = [["dscacheutil"; "-flushcache"]; ["killall"; "-HUP"; "mDNSResponder"]].
Proof. exact (flush_dns_macos (posix_user "Darwin" 501) empty_disk eq_refl). Defined.

(** X6 with chrome running. *)
Lemma clear_browser_data_logs_its_errors_witness :
  log (clear_browser_data sample_config windows_user chrome_running_disk).1
  = log chrome_running_disk
    ++ ["chrome: [Errno 13] Permission denied: 'home/Chrome/History'"].
Proof.
  apply (clear_browser_data_logs_its_errors sample_config windows_user chrome_running_disk).
  vm_compute. reflexivity.
Defined.

Lemma bookmarks_not_targeted name (p : path) :
  (name, p) ∈ BROWSER_PROFILES sample_config ->
  ~ targeted name p ["home"; "Chrome"; "Bookmarks"].
Proof.
  intros Hin [(entry & Hentry & Hpre)|(Hname & x & Hpre)];
    repeat (apply elem_of_cons in Hin as [[= -> ->]|Hin]);
    try (by apply elem_of_nil in Hin); try discriminate Hname;
    try (destruct Hpre as [k Hk]; discriminate Hk).
  apply (path_join_prefix_inj ["home"; "Chrome"]) in Hpre as ->.
  repeat (apply elem_of_cons in Hentry as [Hentry|Hentry]; [discriminate Hentry|]).
  by apply elem_of_nil in Hentry.
Qed.

(** X7 for the bookmarks of chrome. *)
Lemma clear_browser_data_confined_witness :
  fs (clear_browser_data sample_config windows_user busy_disk).1
    !! ["home"; "Chrome"; "Bookmarks"]
  = fs busy_disk !! ["home"; "Chrome"; "Bookmarks"].
Proof.
  apply (clear_browser_data_confined sample_config windows_user busy_disk).
  - intros H. discriminate H.
  - apply bookmarks_not_targeted.
Defined.

Lemma notes_not_an_artifact : "notes.txt" ∉ ARTIFACTS.
Proof.
  intros H. repeat (apply elem_of_cons in H as [H|H]; [discriminate H|]).
  by apply elem_of_nil in H.
Qed.

(** X8 for a stray file beside the firefox profiles. *)
Lemma clear_profile_keeps_plain_files_witness :
  fs (clear_profile ("firefox", ["home"; "Firefox"]) [] windows_user firefox_disk).1
    !! path_join ["home"; "Firefox"] "notes.txt"
  = Some a_file.
Proof.
  apply (clear_profile_keeps_plain_files windows_user firefox_disk "firefox"
           ["home"; "Firefox"] "notes.txt" a_file []).
  - exact notes_not_an_artifact.
  - vm_compute. reflexivity.
  - reflexivity.
Defined.



(** X10 with a file in the place of the profile directory. *)
Lemma profile_root_not_a_directory_witness :
  clear_profile ("firefox", ["home"; "Firefox"]) [] windows_user profile_file_disk
  = (logged "firefox: [Errno 20] Not a directory: 'home/Firefox'" profile_file_disk,
     Returns ["firefox: [Errno 20] Not a directory: 'home/Firefox'"]) /\
  (forall name, name <> "firefox" ->
     clear_profile (name, ["home"; "Firefox"]) [] windows_user profile_file_disk
     = (profile_file_disk, Returns [])).
Proof.
  apply (profile_root_not_a_directory windows_user profile_file_disk
           ["home"; "Firefox"] a_file []).
  - reflexivity.
  - vm_compute. reflexivity.
  - reflexivity.
  - repeat constructor.
Defined.

(** X11 for the history of chrome. *)
Lemma sign_out_services_touches_one_file_witness :
  fs (sign_out_services sample_config windows_user busy_disk).1
    !! ["home"; "Chrome"; "History"]
  = fs busy_disk !! ["home"; "Chrome"; "History"].
Proof.
  apply (sign_out_services_touches_one_file sample_config windows_user busy_disk).
  - intros H. discriminate H.
  - discriminate.
Defined.

(** X12 on a signed-in machine. *)
Lemma sign_out_services_removes_credential_file_witness :
  sign_out_github_desktop sample_config [] windows_user signed_in_disk
  = (set_fs (delete (cred_file sample_config) (fs signed_in_disk)) signed_in_disk,
     Returns []) /\
  fs (sign_out_services sample_config windows_user signed_in_disk).1
    !! cred_file sample_config = None.
Proof.
  apply (sign_out_services_removes_credential_file sample_config windows_user
           signed_in_disk a_file).
  - vm_compute. reflexivity.
  - reflexivity.
  - reflexivity.
Defined.

(** X13 with a directory under the name of the credential file. *)
Lemma sign_out_services_credential_directory_witness :
  exists detail,
    sign_out_github_desktop sample_config [] windows_user credential_dir_disk
    = (logged ("GitHub Desktop: " +:+ detail) credential_dir_disk,
       Returns ["GitHub Desktop: " +:+ detail]) /\
    fs (sign_out_services sample_config windows_user credential_dir_disk).1
      !! cred_file sample_config = Some a_dir.
Proof.
  apply (sign_out_services_credential_directory sample_config windows_user
           credential_dir_disk a_dir).
  - reflexivity.
  - vm_compute. reflexivity.
  - reflexivity.
Defined.

(** X15 with the credential file locked and [cmdkey] missing. *)
Lemma sign_out_services_logs_its_errors_witness :
  log (sign_out_services sample_config windows_no_cmdkey busy_disk).1
  = log busy_disk
    ++ ["GitHub Desktop: [Errno 13] Permission denied: 'home/GitHub Desktop/git-credential-desktop.json'";
        "Windows Credentials: [Errno 2] No such file or directory: 'cmdkey'"].
Proof.
  apply (sign_out_services_logs_its_errors sample_config windows_no_cmdkey busy_disk).
  vm_compute. reflexivity.
Defined.

Lemma darwin_flushable : dns_flushable (posix_user "Darwin" 501).
Proof. split; [done|]. split; [done|]. by repeat constructor. Qed.

Lemma windows_user_not_flushable : ~ dns_flushable windows_user.
Proof. intros (_ & Hadmin & _). by specialize (Hadmin eq_refl). Qed.

(** X16 on a Mac, where the flush works, and for a Windows user without
    elevation, where it does not. *)
Lemma action_flush_dialog_witness :
  action_flush (posix_user "Darwin" 501) empty_disk fresh_window
  = (started (dns_commands "Darwin") empty_disk,
     {| status_var := "Ready.";
        dialogs := [Dialog showinfo "Flush DNS" DNS_OK_MSG] |},
     Returns tt) /\
  exists s' msg,
    action_flush windows_user empty_disk fresh_window
    = (s',
       {| status_var := "Ready.";
          dialogs := [Dialog showerror "Flush DNS Error" msg] |},
       Returns tt).
Proof.
  split.
  - exact (proj1 (action_flush_dialog (posix_user "Darwin" 501) empty_disk fresh_window
                    eq_refl) darwin_flushable).
  - exact (proj2 (action_flush_dialog windows_user empty_disk fresh_window eq_refl)
             windows_user_not_flushable).
Defined.

(** X17 for a Windows user without elevation, chrome running. *)
Lemma action_all_report_witness :
  dialogs (action_all sample_config windows_user chrome_running_disk fresh_window).1.2
  = [Dialog showinfo "Superflush Report"
       (String.concat NL
          [NOT_ADMIN_MSG; "chrome: [Errno 13] Permission denied: 'home/Chrome/History'"])].
Proof.
  set (s1 := (flush_dns windows_user chrome_running_disk).1).
  set (s2 := (clear_browser_data sample_config windows_user s1).1).
  set (s3 := (sign_out_services sample_config windows_user s2).1).
  rewrite (action_all_report sample_config windows_user chrome_running_disk fresh_window
             s1 (false, NOT_ADMIN_MSG) s2
             ["chrome: [Errno 13] Permission denied: 'home/Chrome/History'"] s3 []).
  - reflexivity.
  - vm_compute. reflexivity.
  - vm_compute. reflexivity.
  - vm_compute. reflexivity.
Defined.


(** X1 on a Mac where both commands succeed. *)
Lemma flush_dns_succeeds_iff_witness :
  flush_dns (posix_user "Darwin" 501) empty_disk
  = (started (dns_commands "Darwin") empty_disk, Returns (true, DNS_OK_MSG)).
Proof.
  exact (proj1 (flush_dns_succeeds_iff (posix_user "Darwin" 501) empty_disk)
           darwin_flushable).
Defined.

(** X4 on Linux without [systemd-resolve]. *)
Lemma flush_dns_result_logged_witness :
  log (flush_dns (posix_user "Linux" 1000) empty_disk).1
  = log empty_disk
    ++ ["DNS flush error: [Errno 2] No such file or directory: 'systemd-resolve'"].
Proof.
  apply (flush_dns_result_logged (posix_user "Linux" 1000) empty_disk
           (flush_dns (posix_user "Linux" 1000) empty_disk).1 false
           "[Errno 2] No such file or directory: 'systemd-resolve'").
  vm_compute. reflexivity.
Defined.

(** X19 with chrome running: the warning box shows the line of the log. *)
Lemma report_box_matches_log_witness :
  dialogs (action_clear sample_config windows_user chrome_running_disk fresh_window).1.2
  = [Dialog showwarning "Clear Data"
       "chrome: [Errno 13] Permission denied: 'home/Chrome/History'"].
Proof.
  set (s' := (clear_browser_data sample_config windows_user chrome_running_disk).1).
  destruct (proj1 (report_box_matches_log sample_config windows_user chrome_running_disk
                     fresh_window)
              s' ["chrome: [Errno 13] Permission denied: 'home/Chrome/History'"])
    as [_ Hbox].
  - vm_compute. reflexivity.
  - rewrite Hbox. reflexivity.
Defined.

(** ** clear_browser_data: the first failing deletion of every browser *)

(** What the turn of a browser keeps, from what its system calls keep. *)
Lemma keeps_clear_profile R item errors :
  (forall s, R s s) -> (forall s1 s2 s3, R s1 s2 -> R s2 s3 -> R s1 s3) ->
  (forall x, keeps R (os_remove x)) -> (forall x, keeps R (shutil_rmtree x)) ->
  (forall s line, R s (logged line s)) ->
  keeps R (clear_profile item errors).
Proof.
  intros Hrefl Htrans Hrm Hrt Hlog. destruct item as [name p].
  unfold clear_profile, clear_profile_try, clear_entry, os_path_exists, os_path_isdir, str.
  apply keeps_bind; [exact Htrans|apply keeps_get; exact Hrefl|intros present].
  apply keeps_if; [|apply keeps_ret; exact Hrefl].
  apply keeps_try_except; [exact Htrans| |intros e].
  - apply keeps_bind; [exact Htrans| |intros ?; apply keeps_ret; exact Hrefl].
    apply keeps_bind; [exact Htrans| |intros ?].
    + apply keeps_for_each; [exact Hrefl|exact Htrans|]. intros entry [] _.
      apply keeps_bind; [exact Htrans|apply keeps_get; exact Hrefl|intros ex].
      apply keeps_if; [|apply keeps_ret; exact Hrefl].
      apply keeps_bind; [exact Htrans|apply keeps_get; exact Hrefl|intros d].
      apply keeps_if; [apply Hrt|apply Hrm].
    + apply keeps_if; [|apply keeps_ret; exact Hrefl].
      apply keeps_bind; [exact Htrans|apply keeps_os_listdir; exact Hrefl|intros names].
      apply keeps_for_each; [exact Hrefl|exact Htrans|]. intros x [] _. apply Hrt.
  - apply keeps_bind; [exact Htrans|apply keeps_ask; exact Hrefl|intros d].
    apply keeps_bind; [exact Htrans| |intros ?; apply keeps_ret; exact Hrefl].
    apply keeps_log_error; [exact Hlog|exact Hrefl].
Qed.

Lemma pinned_intro (f : gmap path node) (q r : path) m :
  f !! r = Some m -> q `prefix_of` r -> locked m = true -> pinned f q = true.
Proof. intros Hr Hq Hm. apply bool_decide_eq_true. by exists r, m. Qed.

(** [rmtree] leaves what has something locked at or below it. *)
Lemma rmtree_fs_keeps_pinned (f : gmap path node) (x q : path) m :
  f !! q = Some m -> pinned f q = true -> rmtree_fs x f !! q = Some m.
Proof.
  intros Hq Hpin. unfold rmtree_fs. destruct (f !! x) as [nx|]; [|done].
  destruct (is_dir nx); [|done].
  apply map_lookup_filter_Some. split; [done|]. by right.
Qed.

Section Anchor.

Variables (p t : path) (np n : node).
Hypothesis p_dir : is_dir np = true.
Hypothesis t_locked : locked n = true.
Hypothesis p_above_t : p `prefix_of` t.

Lemma anchored_refl s : anchored p t np n s s.
Proof. by intros H. Qed.

Lemma anchored_trans s1 s2 s3 :
  anchored p t np n s1 s2 -> anchored p t np n s2 s3 -> anchored p t np n s1 s3.
Proof. unfold anchored. auto. Qed.

Lemma anchored_os_remove (x : path) : keeps (anchored p t np n) (os_remove x).
Proof.
  intros env s [Hp Ht]. unfold os_remove. run.
  destruct (fs s !! x) as [m|] eqn:Hx; [|done].
  destruct (is_dir m) eqn:Hdir; [done|]. destruct (locked m) eqn:Hlock; [done|].
  simpl. rewrite !lookup_delete_ne; [done| |]; intros ->; congruence.
Qed.

Lemma anchored_rmtree (x : path) : keeps (anchored p t np n) (shutil_rmtree x).
Proof.
  intros env s [Hp Ht]. simpl. split.
  - apply rmtree_fs_keeps_pinned; [done|]. by eapply pinned_intro.
  - apply rmtree_fs_keeps_pinned; [done|]. by eapply pinned_intro.
Qed.

Lemma anchored_clear_profiles items errors :
  keeps (anchored p t np n) (for_each items clear_profile errors).
Proof.
  apply keeps_for_each; [exact anchored_refl|exact anchored_trans|].
  intros item acc _.
  apply keeps_clear_profile;
    [exact anchored_refl|exact anchored_trans|exact anchored_os_remove
    |exact anchored_rmtree|intros s line H; exact H].
Qed.

Lemma anchored_entries (q : path) (entries : list string) :
  keeps (anchored p t np n) (for_each entries (fun e _ => clear_entry q e) tt).
Proof.
  apply keeps_for_each; [exact anchored_refl|exact anchored_trans|].
  intros entry [] _. unfold clear_entry, os_path_exists, os_path_isdir.
  apply keeps_bind; [exact anchored_trans|apply keeps_get; exact anchored_refl|intros ex].
  apply keeps_if; [|apply keeps_ret; exact anchored_refl].
  apply keeps_bind; [exact anchored_trans|apply keeps_get; exact anchored_refl|intros d].
  apply keeps_if; [apply anchored_rmtree|apply anchored_os_remove].
Qed.

End Anchor.

Lemma harmless_mono (f f' : gmap path node) (q : path) :
  f' ⊆ f -> harmless f q -> harmless f' q.
Proof.
  unfold harmless. intros Hsub H.
  destruct (f' !! q) as [m|] eqn:Hq; [|done].
  by rewrite (lookup_weaken _ _ _ _ Hq Hsub) in H.
Qed.

Lemma clear_entry_harmless env s (p : path) (entry : string) :
  harmless (fs s) (path_join p entry) ->
  exists s', clear_entry p entry env s = (s', Returns tt).
Proof.
  unfold harmless, clear_entry, os_path_exists, os_path_isdir, shutil_rmtree, os_remove.
  run. destruct (fs s !! path_join p entry) as [m|] eqn:Hm.
  - intros Hok. rewrite bool_decide_true by eauto. simpl. rewrite Hm.
    destruct (is_dir m) eqn:Hdir; [eauto|].
    destruct Hok as [?|Hfree]; [done|]. rewrite Hm, Hdir, Hfree. eauto.
  - intros _. rewrite bool_decide_false by (by intros [? ?]). eauto.
Qed.

Lemma entries_harmless env s (p : path) (entries : list string) :
  Forall (fun e => harmless (fs s) (path_join p e)) entries ->
  exists s', for_each entries (fun e _ => clear_entry p e) tt env s = (s', Returns tt).
Proof.
  revert s. induction entries as [|e entries IH]; intros s Hall; simpl.
  - by exists s.
  - apply Forall_cons in Hall as [He Hall].
    destruct (clear_entry_harmless env s p e He) as [s1 Hs1].
    pose proof (only_deletes_clear_entry p e env s) as Hsub.
    rewrite Hs1 in Hsub. simpl in Hsub.
    unfold bind. rewrite Hs1. apply IH.
    eapply Forall_impl; [exact Hall|]. intros x. by apply harmless_mono.
Qed.

(** The turn of a browser whose profile directory holds a locked file at
    [entry], the artifacts before it being harmless, adds the error of that
    file. *)
Lemma clear_profile_captures env s (name : string) (p : path) np errors
    before (entry : string) after n :
  log_fault env = None ->
  ARTIFACTS = before ++ entry :: after ->
  fs s !! p = Some np -> is_dir np = true ->
  Forall (fun e => harmless (fs s) (path_join p e)) before ->
  fs s !! path_join p entry = Some n -> is_dir n = false -> locked n = true ->
  exists s',
    clear_profile (name, p) errors env s
    = (s', Returns (errors ++ [name +:+ ": " +:+ strerror env EACCES (path_join p entry)])).
Proof.
  intros Hlog Hart Hp Hpdir Hbefore Hn Hfile Hlock.
  destruct (entries_harmless env s p before Hbefore) as [s1 Hs1].
  pose proof (anchored_entries p (path_join p entry) np n Hpdir Hlock
                ltac:(by exists [entry]) p before env s (conj Hp Hn)) as [_ Hn1].
  rewrite Hs1 in Hn1. simpl in Hn1.
  eexists. by eapply clear_profile_stops.
Qed.

Lemma clear_profiles_capture env s pre post (name : string) (p : path) np errors
    before (entry : string) after n :
  log_fault env = None ->
  ARTIFACTS = before ++ entry :: after ->
  fs s !! p = Some np -> is_dir np = true ->
  Forall (fun e => harmless (fs s) (path_join p e)) before ->
  fs s !! path_join p entry = Some n -> is_dir n = false -> locked n = true ->
  exists s' earlier later,
    for_each (pre ++ (name, p) :: post) clear_profile errors env s
    = (s', Returns (errors ++ earlier
                      ++ (name +:+ ": " +:+ strerror env EACCES (path_join p entry))
                      :: later)) /\
    one_each pre earlier /\ one_each post later.
Proof.
  intros Hlog Hart Hp Hpdir Hbefore Hn Hfile Hlock.
  rewrite for_each_app.
  destruct (clear_profiles_one_each env s pre errors Hlog) as (sa & ea & Hpre & Hone_a).
  pose proof (only_deletes_clear_profiles pre errors env s) as Hsub.
  pose proof (anchored_clear_profiles p (path_join p entry) np n Hpdir Hlock
                ltac:(by exists [entry]) pre errors env s (conj Hp Hn)) as [Hpa Hna].
  rewrite Hpre in Hsub, Hpa, Hna. simpl in Hsub, Hpa, Hna. rewrite Hpre.
  destruct (clear_profile_captures env sa name p np (errors ++ ea) before entry after n)
    as [sb Hturn]; try done.
  { eapply Forall_impl; [exact Hbefore|]. intros x. by apply harmless_mono. }
  simpl. unfold bind at 1. rewrite Hturn.
  destruct (clear_profiles_one_each env sb post
              ((errors ++ ea) ++ [name +:+ ": " +:+ strerror env EACCES (path_join p entry)])
              Hlog) as (sc & ec & Hpost & Hone_c).
  exists sc, ea, ec. split; [|done].
  rewrite Hpost. by rewrite <- !app_assoc.
Qed.

(** C4, as amended.  While the log can be written, the call returns, with
    at most one error string for each browser, in table order, each made of
    the browser's name and a detail.  For every browser of the table whose
    profile directory exists, wherever it stands in the table and whatever
    the browsers before it met: if the first of its artifacts on which
    [os.remove] fails is the locked regular file [entry], the browser
    contributes to the returned sequence exactly one string, its name and
    the detail of that failure, between what the browsers before it and the
    browsers after it contribute.  And that failure ends the turn of the
    browser at once, with that one error string added, the artifacts after
    it left as they are. *)
Theorem clear_browser_data_first_failure_only cfg env s :
  log_fault env = None ->
  (exists s' errs,
     clear_browser_data cfg env s = (s', Returns errs) /\
     one_each (BROWSER_PROFILES cfg) errs) /\
  (forall pre (name : string) (p : path) post np before (entry : string) after n,
     BROWSER_PROFILES cfg = pre ++ (name, p) :: post ->
     ARTIFACTS = before ++ entry :: after ->
     fs s !! p = Some np -> is_dir np = true ->
     Forall (fun e => harmless (fs s) (path_join p e)) before ->
     fs s !! path_join p entry = Some n -> is_dir n = false -> locked n = true ->
     exists s' earlier later,
       clear_browser_data cfg env s
       = (s', Returns (earlier
                         ++ (name +:+ ": " +:+ strerror env EACCES (path_join p entry))
                         :: later)) /\
       one_each pre earlier /\ one_each post later) /\
  (forall (name : string) (p : path) errors before (entry : string) after s0 s1 n,
     ARTIFACTS = before ++ entry :: after ->
     is_Some (fs s0 !! p) ->
     for_each before (fun e _ => clear_entry p e) tt env s0 = (s1, Returns tt) ->
     fs s1 !! path_join p entry = Some n -> is_dir n = false -> locked n = true ->
     let err_msg := name +:+ ": " +:+ strerror env EACCES (path_join p entry) in
     clear_profile (name, p) errors env s0
     = (logged err_msg s1, Returns (errors ++ [err_msg]))).
Proof.
  intros Hlog. split; [|split].
  - destruct (clear_profiles_one_each env s (BROWSER_PROFILES cfg) [] Hlog)
      as (s' & errs & Hrun & Hone).
    by exists s', errs.
  - intros pre name p post np before entry after n Hcfg Hart Hp Hdir Hbefore Hn Hfile Hlock.
    unfold clear_browser_data. rewrite Hcfg.
    by eapply (clear_profiles_capture env s pre post name p np []).
  - intros. by eapply clear_profile_stops.
Qed.

Lemma two_running_edge_harmless :
  Forall (fun e => harmless (fs two_running_disk) (path_join ["home"; "Edge"] e)) ["History"].
Proof. constructor; [|constructor]. unfold harmless. vm_compute. by right. Qed.

(** The amended C4 on a machine where chrome fails first and edge, the next
    browser, loses History and fails on Cookies and would fail on Login
    Data: edge contributes its one error after that of chrome, and the turn
    of a browser ends at its first failure. *)
Lemma clear_browser_data_first_failure_only_witness :
  (exists s' errs,
     clear_browser_data sample_config windows_user two_running_disk = (s', Returns errs) /\
     one_each (BROWSER_PROFILES sample_config) errs) /\
  (exists s' earlier later,
     clear_browser_data sample_config windows_user two_running_disk
     = (s', Returns (earlier
                       ++ "edge: [Errno 13] Permission denied: 'home/Edge/Cookies'" :: later)) /\
     one_each [("chrome", ["home"; "Chrome"])] earlier /\
     one_each [("firefox", ["home"; "Firefox"])] later) /\
  clear_profile ("chrome", ["home"; "Chrome"]) [] windows_user cookies_locked_disk
  = (logged "chrome: [Errno 13] Permission denied: 'home/Chrome/Cookies'"
       (set_fs (delete ["home"; "Chrome"; "History"] (fs cookies_locked_disk)) cookies_locked_disk),
     Returns ["chrome: [Errno 13] Permission denied: 'home/Chrome/Cookies'"]).
Proof.
  destruct (clear_browser_data_first_failure_only sample_config windows_user
              two_running_disk eq_refl) as (Hall & Hcapture & Hstop).
  split; [exact Hall|]. split.
  - apply (Hcapture [("chrome", ["home"; "Chrome"])] "edge" ["home"; "Edge"]
             [("firefox", ["home"; "Firefox"])] a_dir ["History"] "Cookies"
             ["Login Data"; "Cache"] a_locked_file).
    + reflexivity.
    + reflexivity.
    + vm_compute. reflexivity.
    + reflexivity.
    + exact two_running_edge_harmless.
    + vm_compute. reflexivity.
    + reflexivity.
    + reflexivity.
  - apply (Hstop "chrome" ["home"; "Chrome"] [] ["History"] "Cookies" ["Login Data"; "Cache"]
             cookies_locked_disk _ a_locked_file).
    + reflexivity.
    + exists a_dir. vm_compute. reflexivity.
    + vm_compute. reflexivity.
    + vm_compute. reflexivity.
    + reflexivity.
    + reflexivity.
Defined.

(** On that machine the call returns the error of chrome and then that of
    edge, and the second locked file of edge gives none. *)
Example two_running_browsers :
  (clear_browser_data sample_config windows_user two_running_disk).2
  = Returns ["chrome: [Errno 13] Permission denied: 'home/Chrome/History'";
             "edge: [Errno 13] Permission denied: 'home/Edge/Cookies'"].
Proof. vm_compute. reflexivity. Qed.
